(** * zibra test servers: a shallow embedding of [server.py] and [gzipServer.py]

    The two Python programs are small HTTP servers used to exercise a
    browser: [server.py] is a guest book (request parsing, form decoding,
    a two-route dispatcher over a process-wide entry list) and
    [gzipServer.py] answers every GET with a gzip payload framed in
    chunked transfer-encoding.

    Data are modelled as Python has them:
    - [bytes] is a list of [Byte.byte];
    - [str] is a list of Unicode code points (numbers in [N]);
    - a [dict] is a [gmap];
    - an exception is the [Raise] outcome of the [outcome] type, one
      constructor of [error] per raise site of the source;
    - the module-level list [ENTRIES] is threaded through the functions
      that read or append to it.

    Library functions the programs call ([bytes.decode], [str.split],
    [str.strip], [str.casefold], [int], [urllib.parse.unquote_plus], the
    [X] format, [range], slicing, [readline], [read]) are modelled in
    module [Py] from their documented behaviour.  Two Unicode tables are
    not reproduced: [casefold] folds the ASCII letters only, and [int]
    reads the ASCII digits only. *)

From Stdlib Require Import NArith ZArith Strings.String Strings.Byte Lia List.
From stdpp Require Import base option list gmap.
Import ListNotations.

#[local] Open Scope N_scope.

(** ** Outcomes: a value or a raised exception *)

(** One constructor per raise site; the comment gives the Python exception
    and the source line. *)
Inductive error : Set :=
| UnicodeDecodeError    (* bytes.decode('utf8') on ill-formed input: server.py 16, 23, 32 *)
| UnicodeEncodeError    (* str.encode('utf8') on a surrogate: server.py 42, 44 *)
| MalformedRequestLine  (* ValueError, unpacking reqline.split(" ", 2): server.py 17 *)
| UnsupportedMethod     (* AssertionError: server.py 18 *)
| MalformedHeader       (* ValueError, unpacking line.split(":", 1): server.py 26 *)
| InvalidContentLength  (* ValueError from int(...): server.py 31 *)
| InvalidReadLength     (* ValueError from read(n) with n < -1: server.py 32 *)
| MissingBody           (* AttributeError, None.split: server.py 71 *)
| MissingEquals.        (* ValueError, unpacking field.split("=", 1): server.py 72 *)

Inductive outcome (A : Type) : Type :=
| Return (a : A)
| Raise (e : error).
Arguments Return {A} a.
Arguments Raise {A} e.

#[global] Instance outcome_ret : MRet outcome := @Return.
#[global] Instance outcome_bind : MBind outcome := fun A B k m =>
  match m with
  | Return a => k a
  | Raise e => Raise e
  end.
#[global] Instance outcome_fmap : FMap outcome := fun A B f m =>
  match m with
  | Return a => Return (f a)
  | Raise e => Raise e
  end.

Definition returns {A} (m : outcome A) : Prop := exists a, m = Return a.

(** ** Python values *)

Definition bytes := list byte.
Definition str := list N.

#[global] Instance byte_eq_dec : EqDecision byte.
Proof.
  intros a b. destruct (Byte.eqb a b) eqn:E.
  - left. by apply Byte.byte_dec_bl.
  - right. intros ->. by rewrite Byte.byte_dec_lb in E.
Defined.

(** A bytes literal [b"..."] and an ASCII str literal ["..."]. *)
Definition Bytes (s : string) : bytes := list_byte_of_string s.
Definition Str (s : string) : str := map Byte.to_N (list_byte_of_string s).

Definition CR : byte := x0d.
Definition LF : byte := x0a.
Definition CRLF : bytes := [CR; LF].
Definition crlf : str := [13; 10].

Module Py.

(** *** UTF-8 *)

(** Decoder state: at a character boundary, or inside a sequence with the
    bits read so far, the number of continuation bytes needed after the next
    one and the range allowed for the next byte (Unicode, table 3-7). *)
Inductive utf8_state : Set :=
| Start
| Cont (acc : N) (need : nat) (lo hi : N).

Definition utf8_lead (b : N) : option utf8_state :=
  if b <? 0xC2 then None
  else if b <? 0xE0 then Some (Cont (b - 0xC0) 0 0x80 0xBF)
  else if b =? 0xE0 then Some (Cont 0 1 0xA0 0xBF)
  else if b =? 0xED then Some (Cont 0xD 1 0x80 0x9F)
  else if b <? 0xF0 then Some (Cont (b - 0xE0) 1 0x80 0xBF)
  else if b =? 0xF0 then Some (Cont 0 2 0x90 0xBF)
  else if b <? 0xF4 then Some (Cont (b - 0xF0) 2 0x80 0xBF)
  else if b =? 0xF4 then Some (Cont 4 2 0x80 0x8F)
  else None.

(** The decoder's scan: the code points of the well-formed sequences, and
    [None] for each maximal ill-formed part; after such a part the scan
    resumes at the byte that ended it. *)
Fixpoint utf8_scan (st : utf8_state) (bs : bytes) : list (option N) :=
  match bs with
  | [] =>
      match st with
      | Start => []
      | Cont _ _ _ _ => [None]
      end
  | b :: bs' =>
      let c := Byte.to_N b in
      let at_start (_ : unit) :=
        if c <? 0x80 then Some c :: utf8_scan Start bs'
        else match utf8_lead c with
             | Some st' => utf8_scan st' bs'
             | None => None :: utf8_scan Start bs'
             end in
      match st with
      | Start => at_start tt
      | Cont acc need lo hi =>
          if (lo <=? c) && (c <=? hi) then
            let acc' := acc * 64 + (c - 0x80) in
            match need with
            | O => Some acc' :: utf8_scan Start bs'
            | S n => utf8_scan (Cont acc' n 0x80 0xBF) bs'
            end
          else None :: at_start tt
      end
  end.

(** [bs.decode('utf8')]: [errors='strict'] raises when some part is
    ill-formed. *)
Definition decode (bs : bytes) : outcome str :=
  match mapM id (utf8_scan Start bs) with
  | Some s => Return s
  | None => Raise UnicodeDecodeError
  end.

(** [bs.decode('utf-8', 'replace')]: U+FFFD stands for each ill-formed
    part. *)
Definition decode_replace (bs : bytes) : str :=
  default 0xFFFD <$> utf8_scan Start bs.

Definition byte_of_N (n : N) : byte := default x00 (Byte.of_N n).

Definition encode_char (c : N) : outcome bytes :=
  if c <? 0x80 then Return [byte_of_N c]
  else if c <? 0x800 then
    Return [byte_of_N (0xC0 + c / 64); byte_of_N (0x80 + c mod 64)]
  else if c <? 0x10000 then
    if (0xD800 <=? c) && (c <? 0xE000) then Raise UnicodeEncodeError
    else Return [byte_of_N (0xE0 + c / 4096); byte_of_N (0x80 + (c / 64) mod 64);
                 byte_of_N (0x80 + c mod 64)]
  else if c <? 0x110000 then
    Return [byte_of_N (0xF0 + c / 262144); byte_of_N (0x80 + (c / 4096) mod 64);
            byte_of_N (0x80 + (c / 64) mod 64); byte_of_N (0x80 + c mod 64)]
  else Raise UnicodeEncodeError.

(** [s.encode('utf8')]. *)
Fixpoint encode (s : str) : outcome bytes :=
  match s with
  | [] => Return []
  | c :: s' => bc ← encode_char c; bs ← encode s'; Return (bc ++ bs)
  end.

(** *** Streams *)

(** The unread bytes of a buffered binary reader over a socket: what the
    peer sends before it closes. [readline] returns the bytes up to and
    including the first LF, or all that is left when there is none. *)
Fixpoint readline (req : bytes) : bytes * bytes :=
  match req with
  | [] => ([], [])
  | b :: req' =>
      if decide (b = LF) then ([b], req')
      else let '(line, rest) := readline req' in (b :: line, rest)
  end.

(** [read(n)] blocks until [n] bytes or the end of the stream: it returns
    fewer than [n] bytes only at the end of the stream. [read(-1)] reads to
    the end, and a size below -1 is refused. The buffer of [n] bytes is
    allocated first: a size outside the machine integers (below -2^63, or
    2^63 and above) raises [OverflowError] and a size the machine cannot
    allocate raises [MemoryError]. These two are not modelled: the
    statements about [read] keep to sizes from -2^63 up to what is there
    to read or to 2^20. *)
Definition read (n : Z) (req : bytes) : outcome (bytes * bytes) :=
  if (n <? -1)%Z then Raise InvalidReadLength
  else if (n =? -1)%Z then Return (req, [])
  else Return (take (Z.to_nat n) req, drop (Z.to_nat n) req).

(** *** str methods *)

(** [s.split(sep)] for a one-character separator. *)
Fixpoint split (sep : N) (s : str) : list str :=
  match s with
  | [] => [[]]
  | c :: s' =>
      if c =? sep then [] :: split sep s'
      else match split sep s' with
           | [] => [[c]]
           | field :: fields => (c :: field) :: fields
           end
  end.

(** [s.partition(sep)], when the separator occurs. *)
Fixpoint cut (sep : N) (s : str) : option (str * str) :=
  match s with
  | [] => None
  | c :: s' =>
      if c =? sep then Some ([], s')
      else '(before, after) ← cut sep s'; Some (c :: before, after)
  end.

(** [s.split(sep, maxsplit)] for a one-character separator: at most
    [maxsplit] splits, from the left; the last item is the unsplit rest. *)
Fixpoint splitn (sep : N) (maxsplit : nat) (s : str) : list str :=
  match maxsplit with
  | O => [s]
  | S k =>
      match cut sep s with
      | None => [s]
      | Some (before, after) => before :: splitn sep k after
      end
  end.

(** [str.isspace] for one character. *)
Definition isspace (c : N) : bool :=
  ((0x09 <=? c) && (c <=? 0x0D)) || ((0x1C <=? c) && (c <=? 0x20))
  || (c =? 0x85) || (c =? 0xA0) || (c =? 0x1680)
  || ((0x2000 <=? c) && (c <=? 0x200A))
  || (c =? 0x2028) || (c =? 0x2029) || (c =? 0x202F) || (c =? 0x205F)
  || (c =? 0x3000).

Fixpoint lstrip (s : str) : str :=
  match s with
  | c :: s' => if isspace c then lstrip s' else s
  | [] => []
  end.

Definition rstrip (s : str) : str := rev (lstrip (rev s)).

(** [s.strip()]. *)
Definition strip (s : str) : str := rstrip (lstrip s).

(** [s.casefold()] on ASCII text: the letters [A-Z] are lowered. The model
    keeps every other character, where [str.casefold] folds some 1500
    more (a few of them to ASCII letters): the statements about header
    names keep to ASCII names. *)
Definition casefold_char (c : N) : N :=
  if (0x41 <=? c) && (c <=? 0x5A) then c + 0x20 else c.

Definition casefold (s : str) : str := casefold_char <$> s.

(** *** int *)

Definition isdigit (c : N) : bool := (0x30 <=? c) && (c <=? 0x39).

(** Decimal digits, single underscores allowed between two digits. *)
Fixpoint digits_value (acc : Z) (after_digit : bool) (ds : str) : option Z :=
  match ds with
  | [] => if after_digit then Some acc else None
  | c :: ds' =>
      if isdigit c then digits_value (10 * acc + Z.of_N (c - 0x30)) true ds'
      else if (c =? 0x5F) && after_digit then digits_value acc false ds'
      else None
  end.

(** [int(s)]: surrounding whitespace, an optional sign, then the digits.
    The model reads the ASCII digits only, where [int] also reads the
    other decimal digits of Unicode, and it has no limit on the length of
    the numeral, where [int] refuses more than 4300 digits: the statements
    about [int] keep to ASCII values of at most 4300 characters, stripped
    as the header values are. *)
Definition int (s : str) : option Z :=
  match strip s with
  | 0x2D :: ds => Z.opp <$> digits_value 0 false ds
  | 0x2B :: ds => digits_value 0 false ds
  | ds => digits_value 0 false ds
  end.

(** *** urllib.parse.unquote_plus *)

Definition hex_value (c : N) : option N :=
  if isdigit c then Some (c - 0x30)
  else if (0x41 <=? c) && (c <=? 0x46) then Some (c - 0x37)
  else if (0x61 <=? c) && (c <=? 0x66) then Some (c - 0x57)
  else None.

Definition hex_pair (h l : N) : option byte :=
  a ← hex_value h; b ← hex_value l; Some (byte_of_N (16 * a + b)).

(** [unquote_to_bytes] on ASCII text: a [%] followed by two hexadecimal
    digits is the byte they name; any other [%] is kept. *)
Fixpoint unquote_to_bytes (s : str) : bytes :=
  match s with
  | [] => []
  | c :: s' =>
      match s' with
      | h :: l :: s'' =>
          match (if c =? 0x25 then hex_pair h l else None) with
          | Some b => b :: unquote_to_bytes s''
          | None => byte_of_N c :: unquote_to_bytes s'
          end
      | _ => byte_of_N c :: unquote_to_bytes s'
      end
  end.

(** The parts [unquote] joins: each maximal run of ASCII characters is
    unquoted to bytes and decoded with [errors='replace']; the characters
    between the runs are kept. [run] is the ASCII run read so far. *)
Fixpoint unquoted_parts (run : str) (s : str) : str :=
  match s with
  | [] => decode_replace (unquote_to_bytes run)
  | c :: s' =>
      if c <? 0x80 then unquoted_parts (run ++ [c]) s'
      else decode_replace (unquote_to_bytes run) ++ c :: unquoted_parts [] s'
  end.

Definition unquote (s : str) : str :=
  if bool_decide (0x25 ∈ s) then unquoted_parts [] s else s.

(** [s.replace('+', ' ')]. *)
Definition replace_plus (s : str) : str :=
  (fun c => if c =? 0x2B then 0x20 else c) <$> s.

Definition unquote_plus (s : str) : str := unquote (replace_plus s).

(** *** Number formatting *)

(** The digits of [n] in [base], most significant first; [fuel] bounds the
    number of digits. *)
Fixpoint to_digits (base : N) (fuel : nat) (n : N) : list N :=
  match fuel with
  | O => []
  | S fuel' =>
      if n <? base then [n]
      else to_digits base fuel' (n / base) ++ [n mod base]
  end.

Definition digit_char (d : N) : N := if d <? 10 then 0x30 + d else 0x37 + d.

(** [format(n, 'X')]: uppercase hexadecimal, no prefix. *)
Definition format_X (n : N) : str :=
  digit_char <$> to_digits 16 (N.to_nat (N.size n) + 1) n.

(** [format(n, 'd')], what [{}] gives for an int. *)
Definition format_d (n : N) : str :=
  digit_char <$> to_digits 10 (N.to_nat (N.size n) + 1) n.

(** *** range and slices *)

(** [range(start, stop, step)] for [step >= 1]: its length is computed
    first, as CPython does. *)
Definition range (start stop step : nat) : list nat :=
  (fun k => start + k * step)%nat <$> seq 0 ((stop - start + step - 1) / step)%nat.

(** [data[i:j]] for [0 <= i <= j]; the end is clamped to the length. *)
Definition slice {A} (data : list A) (i j : nat) : list A :=
  take (j - i)%nat (drop i data).

(** *** Loops that can raise *)

(** [for x in xs: state = body(state, x)], left at the first exception. *)
Fixpoint for_in {A S} (xs : list A) (body : S -> A -> outcome S) (s : S)
  : outcome S :=
  match xs with
  | [] => Return s
  | x :: xs' => s' ← body s x; for_in xs' body s'
  end.

End Py.

(** * gzipServer.py *)

Section GzipChunkedHandler.

(** [gzip.GzipFile(...).write(data)] then [getvalue()]: the compression
    engine, kept opaque. *)
Variable gzip_compress : bytes -> bytes.

Definition response_text : str :=
  Str "Hello, this is a compressed and chunked response!".

Definition chunk_size : nat := 16.

(** The output file [wfile] is the sequence of the [write] calls made so
    far; the bytes on the wire are their concatenation. *)
Definition write (wfile : list bytes) (data : bytes) : list bytes :=
  wfile ++ [data].

(** One turn of the loop of [do_GET] (lines 28-31). *)
Definition send_chunk (chunk_size : nat) (compressed_data : bytes)
    (wfile : list bytes) (i : nat) : outcome (list bytes) :=
  let chunk := Py.slice compressed_data i (i + chunk_size) in
  size_line ← Py.encode (Py.format_X (N.of_nat (length chunk)) ++ crlf);
  let wfile := write wfile size_line in
  let wfile := write wfile chunk in
  let wfile := write wfile CRLF in
  Return wfile.

(** Lines 27-32 of [do_GET], for any chunk size. *)
Definition send_chunked (chunk_size : nat) (compressed_data : bytes)
    (wfile : list bytes) : outcome (list bytes) :=
  wfile ← Py.for_in (Py.range 0 (length compressed_data) chunk_size)
            (send_chunk chunk_size compressed_data) wfile;
  Return (write wfile (Bytes "0" ++ CRLF ++ CRLF)).

(** [do_GET]: [wfile] already holds the status line and the headers. *)
Definition do_GET (wfile : list bytes) : outcome (list bytes) :=
  payload ← Py.encode response_text;
  let compressed_data := gzip_compress payload in
  send_chunked chunk_size compressed_data wfile.

End GzipChunkedHandler.

(** * server.py *)

(** [ENTRIES = ['braheezy was here']]: the value of the module-level list
    when the server starts. The functions below take the current list and
    return the new one. *)
Definition ENTRIES_initial : list str := [Str "braheezy was here"].

Record request : Type := Request {
  method : str;
  url : str;
  version : str;
  headers : gmap str str;
  body : option str
}.

(** The [while True] loop of [handle_connection] (lines 22-27). Each turn
    that does not leave the loop or raise has read a line with a colon in
    it, so [fuel] above the number of unread bytes is never used up. *)
Fixpoint read_headers_loop (fuel : nat) (req : bytes) (headers : gmap str str)
  : option (outcome (gmap str str * bytes)) :=
  match fuel with
  | O => None
  | S fuel' =>
      let '(raw, req) := Py.readline req in
      match Py.decode raw with
      | Raise e => Some (Raise e)
      | Return line =>
          if bool_decide (line = crlf) then Some (Return (headers, req))
          else match Py.splitn 0x3A 1 line with
               | [header; value] =>
                   read_headers_loop fuel' req
                     (<[Py.casefold header := Py.strip value]> headers)
               | _ => Some (Raise MalformedHeader)
               end
      end
  end.

Definition read_headers (req : bytes) (headers : gmap str str)
  : outcome (gmap str str * bytes) :=
  default (Raise MalformedHeader) (read_headers_loop (S (length req)) req headers).

(** Lines 30-34: the body, when a length is declared. *)
Definition read_body (headers : gmap str str) (req : bytes)
  : outcome (option str * bytes) :=
  match headers !! Str "content-length" with
  | Some value =>
      match Py.int value with
      | None => Raise InvalidContentLength
      | Some length =>
          '(data, req) ← Py.read length req;
          body ← Py.decode data;
          Return (Some body, req)
      end
  | None => Return (None, req)
  end.

(** Lines 20-34, after the request line. *)
Definition read_rest (method url version : str) (req : bytes)
  : outcome (request * bytes) :=
  '(headers, req) ← read_headers req ∅;
  '(body, req) ← read_body headers req;
  Return (Request method url version headers body, req).

(** Lines 15-34 of [handle_connection]: the request read from the
    connection, and the bytes left unread. The [assert] of line 18 is
    taken as enabled (the interpreter is not run with [-O]). *)
Definition parse_request (req : bytes) : outcome (request * bytes) :=
  let '(raw, req) := Py.readline req in
  reqline ← Py.decode raw;
  match Py.splitn 0x20 2 reqline with
  | [method; url; version] =>
      if bool_decide (method ∈ [Str "GET"; Str "POST"])
      then read_rest method url version req
      else Raise UnsupportedMethod
  | _ => Raise MalformedRequestLine
  end.

Definition show_comments (ENTRIES : list str) : str :=
  let out := Str "<!doctype html>" in
  let out := foldl (fun out entry => out ++ Str "<p>" ++ entry ++ Str "</p>") out ENTRIES in
  let out := out ++ Str "<form action=add method=post>" in
  let out := out ++ Str "<p><input name=guest></p>" in
  let out := out ++ Str "<p><button>Sign the book!</button></p>" in
  let out := out ++ Str "</form>" in
  out.

Definition form_decode (body : option str) : outcome (gmap str str) :=
  match body with
  | None => Raise MissingBody
  | Some body =>
      Py.for_in (Py.split 0x26 body)
        (fun (params : gmap str str) field =>
           match Py.splitn 0x3D 1 field with
           | [name; value] =>
               let name := Py.unquote_plus name in
               let value := Py.unquote_plus value in
               Return (<[name := value]> params)
           | _ => Raise MissingEquals
           end)
        ∅
  end.

Definition add_entry (params : gmap str str) (ENTRIES : list str)
  : str * list str :=
  let ENTRIES :=
    match params !! Str "guest" with
    | Some guest => ENTRIES ++ [guest]
    | None => ENTRIES
    end in
  (show_comments ENTRIES, ENTRIES).

Definition not_found (url method : str) : str :=
  let out := Str "<!doctype html>" in
  let out := out ++ Str "<h1>" ++ method ++ Str " " ++ url ++ Str " not found!</h1>" in
  out.

(** [do_request] returns the status and the page, or raises; in both cases
    the entry list it leaves is returned too. *)
Definition do_request (method url : str) (headers : gmap str str)
    (body : option str) (ENTRIES : list str)
  : outcome (str * str) * list str :=
  if bool_decide (method = Str "GET") && bool_decide (url = Str "/") then
    (Return (Str "200 OK", show_comments ENTRIES), ENTRIES)
  else if bool_decide (method = Str "POST") && bool_decide (url = Str "/add") then
    match form_decode body with
    | Raise e => (Raise e, ENTRIES)
    | Return params =>
        let '(page, ENTRIES) := add_entry params ENTRIES in
        (Return (Str "200 OK", page), ENTRIES)
    end
  else
    (Return (Str "404 Not Found", not_found url method), ENTRIES).

(** Lines 40-44: the response handed to [conx.send]. *)
Definition send_response (status response_body : str) : outcome bytes :=
  let response := Str "HTTP/1.0 " ++ status ++ crlf in
  encoded_body ← Py.encode response_body;
  let response :=
    response ++ Str "Content-Length: "
      ++ Py.format_d (N.of_nat (length encoded_body)) ++ crlf in
  let response := response ++ crlf ++ response_body in
  Py.encode response.

(** [handle_connection]: [conx] is what the peer sends before it closes;
    the result is what is sent back, and the entry list afterwards. *)
Definition handle_connection (conx : bytes) (ENTRIES : list str)
  : outcome bytes * list str :=
  match parse_request conx with
  | Raise e => (Raise e, ENTRIES)
  | Return (r, _) =>
      match do_request (method r) (url r) (headers r) (body r) ENTRIES with
      | (Raise e, ENTRIES) => (Raise e, ENTRIES)
      | (Return (status, response_body), ENTRIES) =>
          (send_response status response_body, ENTRIES)
      end
  end.

(** The accept loop of [main] (lines 105-108) over the connections that
    arrive, in order: an exception raised by [handle_connection] is not
    caught (only [KeyboardInterrupt] is), so it ends the loop. The result
    is what each served connection was sent, and the entry list at the
    end. *)
Fixpoint serve (conxs : list bytes) (ENTRIES : list str)
  : list (outcome bytes) * list str :=
  match conxs with
  | [] => ([], ENTRIES)
  | conx :: conxs' =>
      match handle_connection conx ENTRIES with
      | (Raise e, ENTRIES) => ([Raise e], ENTRIES)
      | (Return response, ENTRIES) =>
          let '(responses, ENTRIES) := serve conxs' ENTRIES in
          (Return response :: responses, ENTRIES)
      end
  end.

(** * Vocabulary of the statements *)

(** ASCII text as bytes. *)
Definition ascii_bytes (s : str) : bytes := Py.byte_of_N <$> s.
Definition is_ascii (s : str) : Prop := Forall (fun c => c < 0x80) s.

(** The values the loop variable [chunk] takes, in order. *)
Definition chunks (chunk_size : nat) (compressed_data : bytes) : list bytes :=
  (fun i => Py.slice compressed_data i (i + chunk_size))
    <$> Py.range 0 (length compressed_data) chunk_size.

(** The three writes made for one chunk, the size line being ASCII. *)
Definition chunk_writes (chunk : bytes) : list bytes :=
  [ascii_bytes (Py.format_X (N.of_nat (length chunk))) ++ CRLF; chunk; CRLF].

(** Reading a hexadecimal numeral back, as [int(s, 16)] does for digits. *)
Definition of_hex (s : str) : option N :=
  match s with
  | [] => None
  | _ => foldl (fun acc c => a ← acc; d ← Py.hex_value c; Some (16 * a + d)) (Some 0) s
  end.

Definition is_upper_hex (c : N) : bool :=
  Py.isdigit c || ((0x41 <=? c) && (c <=? 0x46)).

(** A line as it stands on the wire: bytes other than LF, then LF. *)
Fixpoint is_line (raw : bytes) : bool :=
  match raw with
  | [] => false
  | b :: raw' =>
      if decide (b = LF) then bool_decide (raw' = []) else is_line raw'
  end.

(** A header line on the wire: it decodes to [name:value], the name being
    the text before the first colon. *)
Definition header_line (raw : bytes) (name value : str) : Prop :=
  is_line raw = true
  ∧ Py.decode raw = Return (name ++ 0x3A :: value)
  ∧ 0x3A ∉ name.

(** What the header loop stores for a sequence of name/value lines. *)
Definition store_headers (headers : gmap str str) (fields : list (str * str))
  : gmap str str :=
  foldl (fun headers f => <[Py.casefold f.1 := Py.strip f.2]> headers) headers fields.

(** The number a list of digits stands for, most significant first. *)
Definition value_of_digits (base : N) (ds : list N) : N :=
  foldl (fun acc d => base * acc + d) 0 ds.

(** One turn of the header loop, the next turn being [continue]. *)
Definition header_step (raw rest : bytes) (headers : gmap str str)
    (continue : bytes → gmap str str → outcome (gmap str str * bytes))
  : outcome (gmap str str * bytes) :=
  match Py.decode raw with
  | Raise e => Raise e
  | Return line =>
      if bool_decide (line = crlf) then Return (headers, rest)
      else match Py.splitn 0x3A 1 line with
           | [header; value] =>
               continue rest (<[Py.casefold header := Py.strip value]> headers)
           | _ => Raise MalformedHeader
           end
  end.


(** No whitespace at the front. *)
Definition clean (s : str) : Prop :=
  match s with
  | [] => True
  | c :: _ => Py.isspace c = false
  end.



(** The body of the loop of [form_decode], and what the loop stores for a
    sequence of name/value pairs. *)
Definition store_field (params : gmap str str) (field : str) : outcome (gmap str str) :=
  match Py.splitn 0x3D 1 field with
  | [name; value] => Return (<[Py.unquote_plus name := Py.unquote_plus value]> params)
  | _ => Raise MissingEquals
  end.

Definition store_params (params : gmap str str) (pairs : list (str * str))
  : gmap str str :=
  foldl (fun params p => <[Py.unquote_plus p.1 := Py.unquote_plus p.2]> params)
    params pairs.

(** Forty bytes: two full chunks of sixteen and one of eight. *)
Definition forty_bytes : bytes := Bytes "0123456789abcdefghijklmnopqrstuvwxyzABCD".

(** [sep.join(fields)]. *)
Fixpoint joined (sep : N) (fields : list str) : str :=
  match fields with
  | [] => []
  | [field] => field
  | field :: fields' => field ++ sep :: joined sep fields'
  end.

(** A form body as a browser submits it: [name=value] fields joined by
    [&]. *)
Definition form_body (pairs : list (str * str)) : str :=
  joined 0x26 ((fun p => p.1 ++ 0x3D :: p.2) <$> pairs).

(** A receiver of chunked transfer-encoding (RFC 7230, 4.1, without
    extensions or trailers): a size line in hexadecimal, that many bytes,
    CRLF, and so on until the chunk of size zero. *)
Definition size_of_line (line : bytes) : option N :=
  match reverse line with
  | lf :: cr :: digits =>
      if bool_decide (cr = CR ∧ lf = LF) then of_hex (Byte.to_N <$> reverse digits)
      else None
  | _ => None
  end.

Fixpoint dechunk (fuel : nat) (wire : bytes) : option bytes :=
  match fuel with
  | O => None
  | S fuel' =>
      let '(line, rest) := Py.readline wire in
      size ← size_of_line line;
      if size =? 0 then
        if bool_decide (rest = CRLF) then Some [] else None
      else
        let n := N.to_nat size in
        if bool_decide (length (take n rest) = n ∧ take 2 (drop n rest) = CRLF)
        then (take n rest ++.) <$> dechunk fuel' (drop (n + 2) rest)
        else None
  end.

(** A request that posts [guest] to the guest book, the length of the body
    declared in decimal. *)
Definition post_guest (guest : str) : bytes :=
  Bytes "POST /add HTTP/1.0" ++ CRLF
  ++ Bytes "content-length: "
  ++ ascii_bytes (Py.format_d (N.of_nat (length (Str "guest=" ++ guest)))) ++ CRLF
  ++ CRLF
  ++ ascii_bytes (Str "guest=" ++ guest).

Definition form_markup : str :=
  Str "<form action=add method=post><p><input name=guest></p><p><button>Sign the book!</button></p></form>".

(** A pair that a form body carries unchanged: no [=] in the name, no [&]
    in the name or the value. *)
Definition well_formed_pair (p : str * str) : Prop :=
  (0x3D ∉ p.1) ∧ (0x26 ∉ p.1) ∧ (0x26 ∉ p.2).

(** A character that [encode] accepts: a code point that is not a
    surrogate. *)
Definition encodable (c : N) : bool :=
  (c <? 0x110000) && negb ((0xD800 <=? c) && (c <? 0xE000)).

Definition encodable_text (s : str) : Prop := Forall (fun c => encodable c = true) s.

(** The states from which the scan can only produce encodable
    characters. *)
Fixpoint good_cont (need : nat) (acc lo hi : N) : Prop :=
  match need with
  | O => ∀ x, lo ≤ x ≤ hi → encodable (acc * 64 + (x - 0x80)) = true
  | S n => ∀ x, lo ≤ x ≤ hi → good_cont n (acc * 64 + (x - 0x80)) 0x80 0xBF
  end.

Definition good_state (st : Py.utf8_state) : Prop :=
  match st with
  | Py.Start => True
  | Py.Cont acc need lo hi => good_cont need acc lo hi
  end.

(** * Lemmas *)

(** A decidable fact settled by evaluation. *)
Ltac by_compute := apply (bool_decide_unpack _); by vm_compute.

(** ** The library model on known values *)

Example format_X_255 : Py.format_X 255 = Str "FF".
Proof. reflexivity. Qed.
Example format_X_0 : Py.format_X 0 = Str "0".
Proof. reflexivity. Qed.
Example format_X_16 : Py.format_X 16 = Str "10".
Proof. reflexivity. Qed.
Example format_X_big : Py.format_X 48879 = Str "BEEF".
Proof. reflexivity. Qed.
Example format_d_big : Py.format_d 10203 = Str "10203".
Proof. reflexivity. Qed.
Example unquote_plus_form : Py.unquote_plus (Str "Hello+World%21") = Str "Hello World!".
Proof. reflexivity. Qed.
Example unquote_plus_bad_escapes : Py.unquote_plus (Str "%C3%A9%zz%4") = [233] ++ Str "%zz%4".
Proof. reflexivity. Qed.
Example unquote_plus_ill_formed : Py.unquote_plus (Str "%E2%82x%FF%e2%82%ac") = [0xFFFD; 120; 0xFFFD; 0x20AC].
Proof. reflexivity. Qed.
Example decode_four_bytes : Py.decode [xf0; x9f; x98; x80; x41] = Return [0x1F600; 65].
Proof. reflexivity. Qed.
Example decode_surrogate : Py.decode [xed; xa0; x80] = Raise UnicodeDecodeError.
Proof. reflexivity. Qed.
Example decode_replace_surrogate : Py.decode_replace [xed; xa0; x80] = [0xFFFD; 0xFFFD; 0xFFFD].
Proof. reflexivity. Qed.
Example decode_replace_truncated : Py.decode_replace [xf0; x90; x80; x41] = [0xFFFD; 65].
Proof. reflexivity. Qed.
Example decode_replace_overlong : Py.decode_replace [xc0; x80] = [0xFFFD; 0xFFFD].
Proof. reflexivity. Qed.
Example encode_mixed : Py.encode [0x1F600; 65; 233; 0x20AC] = Return [xf0; x9f; x98; x80; x41; xc3; xa9; xe2; x82; xac].
Proof. reflexivity. Qed.
Example range_40_16 : Py.range 0 40 16 = [0; 16; 32]%nat.
Proof. reflexivity. Qed.
Example range_exact : Py.range 0 32 16 = [0; 16]%nat.
Proof. reflexivity. Qed.
Example int_signed_underscore : Py.int (Str " -1_000 ") = Some (-1000)%Z.
Proof. reflexivity. Qed.
Example int_double_underscore : Py.int (Str "1__0") = None.
Proof. reflexivity. Qed.
Example int_leading_zeros : Py.int (Str "007") = Some 7%Z.
Proof. reflexivity. Qed.
Example splitn_request_line : Py.splitn 0x20 2 (Str "GET / HTTP/1.0 x") = [Str "GET"; Str "/"; Str "HTTP/1.0 x"].
Proof. reflexivity. Qed.
Example split_empty_field : Py.split 0x26 (Str "a=1&&b") = [Str "a=1"; Str ""; Str "b"].
Proof. reflexivity. Qed.
Example strip_both_ends : Py.strip (Str "  a b  ") = Str "a b".
Proof. reflexivity. Qed.

Example handle_get_missing :
  (handle_connection (Bytes "GET /missing HTTP/1.0" ++ CRLF ++ CRLF) ENTRIES_initial).1
  = Return (Bytes "HTTP/1.0 404 Not Found" ++ CRLF ++ Bytes "Content-Length: 47" ++ CRLF
            ++ CRLF ++ Bytes "<!doctype html><h1>GET /missing not found!</h1>").
Proof. by vm_compute. Qed.

Example handle_post_add :
  (handle_connection
     (Bytes "POST /add HTTP/1.0" ++ CRLF ++ Bytes "content-length: 11" ++ CRLF
      ++ CRLF ++ Bytes "guest=hello") [Str "a"; Str "b"]).2
  = [Str "a"; Str "b"; Str "hello"].
Proof. by vm_compute. Qed.

(** ** Chunking *)

Lemma range_from_zero (stop step : nat) :
  Py.range 0 stop step = (fun k => k * step)%nat <$> seq 0 ((stop + step - 1) / step)%nat.
Proof. unfold Py.range. by rewrite Nat.sub_0_r. Qed.

Lemma ceil_div_bounds (L S : nat) :
  (1 ≤ S → L ≤ (L + S - 1) / S * S < L + S)%nat.
Proof.
  intros HS.
  pose proof (Nat.div_mod_eq (L + S - 1) S) as E.
  pose proof (Nat.mod_upper_bound (L + S - 1) S ltac:(lia)). nia.
Qed.

Lemma chunks_eq (S : nat) (data : bytes) :
  chunks S data = (fun k => take S (drop (k * S) data)) <$> seq 0 ((length data + S - 1) / S)%nat.
Proof.
  unfold chunks. rewrite range_from_zero, <- list_fmap_compose.
  apply list_fmap_ext. intros _ k _. simpl. unfold Py.slice. f_equal. lia.
Qed.

Lemma concat_takes {A} (S n : nat) (data : list A) :
  concat ((fun k => take S (drop (k * S) data)) <$> seq 0 n) = take (n * S) data.
Proof.
  induction n as [|n IH]; [done|].
  rewrite seq_S, fmap_app, concat_app, IH. simpl. rewrite app_nil_r.
  rewrite take_take_drop. f_equal. lia.
Qed.

Lemma chunks_length (S : nat) (data : bytes) :
  length (chunks S data) = ((length data + S - 1) / S)%nat.
Proof. by rewrite chunks_eq, length_fmap, length_seq. Qed.

Lemma chunks_lookup (S : nat) (data : bytes) (k : nat) (chunk : bytes) :
  chunks S data !! k = Some chunk →
  (k < length (chunks S data))%nat ∧ chunk = take S (drop (k * S) data).
Proof.
  intros H. pose proof (lookup_lt_Some _ _ _ H) as Hlt. split; [done|].
  rewrite chunks_eq in H. rewrite chunks_length in Hlt.
  rewrite list_lookup_fmap, lookup_seq_lt in H by done. by injection H.
Qed.

Lemma chunk_length (S : nat) (data : bytes) (k : nat) (chunk : bytes) :
  (1 ≤ S)%nat → chunks S data !! k = Some chunk →
  length chunk = (if decide (k + 1 < length (chunks S data))%nat then S
                  else length data - k * S)%nat
  ∧ (1 ≤ length chunk ≤ S)%nat.
Proof.
  intros HS H. apply chunks_lookup in H as [Hlt ->].
  rewrite chunks_length in *. pose proof (ceil_div_bounds (length data) S HS).
  rewrite length_take, length_drop. case_decide; nia.
Qed.

Lemma chunks_concat (S : nat) (data : bytes) :
  (1 ≤ S)%nat → concat (chunks S data) = data.
Proof.
  intros HS. rewrite chunks_eq, concat_takes. apply take_ge.
  pose proof (ceil_div_bounds (length data) S HS). lia.
Qed.

(** ** Digits *)

Lemma to_digits_S (base : N) (f : nat) (n : N) :
  Py.to_digits base (S f) n
  = if n <? base then [n] else Py.to_digits base f (n / base) ++ [n mod base].
Proof. reflexivity. Qed.

Lemma to_digits_spec (base : N) (f : nat) :
  2 ≤ base → ∀ n, n < 2 ^ N.of_nat f →
  let ds := Py.to_digits base (S f) n in
  Forall (fun d => d < base) ds ∧ value_of_digits base ds = n
  ∧ (∃ d ds', ds = d :: ds' ∧ (n ≠ 0 → d ≠ 0)).
Proof.
  intros Hb. induction f as [|f IH]; intros n Hn; cbv zeta; rewrite to_digits_S.
  - assert (n = 0) as -> by (simpl in Hn; lia).
    destruct (N.ltb_spec 0 base); [|lia].
    split; [repeat constructor; lia|]. split; [unfold value_of_digits; simpl; lia | eauto].
  - destruct (N.ltb_spec n base) as [Hlt|Hge].
    + split; [repeat constructor; lia|]. split; [unfold value_of_digits; simpl; lia | eauto].
    + assert (n / base < 2 ^ N.of_nat f) as Hq.
      { apply N.Div0.div_lt_upper_bound.
        replace (N.of_nat (S f)) with (N.succ (N.of_nat f)) in Hn by lia.
        rewrite N.pow_succ_r' in Hn. nia. }
      destruct (IH _ Hq) as (Hall & Hval & d & ds' & Hds & Hd).
      set (ds := Py.to_digits base (S f) (n / base)) in *.
      split; [|split].
      * apply Forall_app. split; [done|]. repeat constructor.
        apply N.mod_lt. lia.
      * unfold value_of_digits in *. rewrite foldl_app. simpl. rewrite Hval.
        pose proof (N.div_mod n base). lia.
      * exists d, (ds' ++ [n mod base]). rewrite Hds. split; [done|].
        intros _. apply Hd. intros Hz.
        assert (n < base); [|lia].
        pose proof (N.div_mod n base ltac:(lia)).
        pose proof (N.mod_lt n base ltac:(lia)). nia.
Qed.

Lemma size_fuel (n : N) : n < 2 ^ N.of_nat (N.to_nat (N.size n)).
Proof. rewrite N2Nat.id. apply N.size_gt. Qed.

Lemma hex_value_digit_char (d : N) : d < 16 → Py.hex_value (Py.digit_char d) = Some d.
Proof.
  intros Hd. unfold Py.hex_value, Py.digit_char, Py.isdigit.
  destruct (N.ltb_spec d 10).
  - replace ((48 <=? 48 + d) && (48 + d <=? 57)) with true
      by (symmetry; apply andb_true_iff; split; apply N.leb_le; lia).
    f_equal. lia.
  - replace ((48 <=? 55 + d) && (55 + d <=? 57)) with false
      by (symmetry; apply andb_false_iff; right; apply N.leb_gt; lia).
    replace ((65 <=? 55 + d) && (55 + d <=? 70)) with true
      by (symmetry; apply andb_true_iff; split; apply N.leb_le; lia).
    f_equal. lia.
Qed.

Lemma is_upper_hex_digit_char (d : N) : d < 16 → is_upper_hex (Py.digit_char d) = true.
Proof.
  intros Hd. unfold is_upper_hex, Py.digit_char, Py.isdigit.
  destruct (N.ltb_spec d 10).
  - apply orb_true_iff. left. apply andb_true_iff; split; apply N.leb_le; lia.
  - apply orb_true_iff. right. apply andb_true_iff; split; apply N.leb_le; lia.
Qed.

Lemma digit_char_ascii (d : N) : d < 16 → Py.digit_char d < 0x80.
Proof. intros Hd. unfold Py.digit_char. destruct (N.ltb_spec d 10); lia. Qed.

Lemma of_hex_digit_chars (ds : list N) (a : N) :
  Forall (fun d => d < 16) ds →
  foldl (fun acc c => a ← acc; d ← Py.hex_value c; Some (16 * a + d)) (Some a)
    (Py.digit_char <$> ds)
  = Some (foldl (fun acc d => 16 * acc + d) a ds).
Proof.
  intros H. revert a. induction H as [|d ds Hd _ IH]; intros a; [done|].
  simpl. rewrite hex_value_digit_char by done. simpl. apply IH.
Qed.

(** [format(n, 'X')] is a numeral of uppercase hexadecimal digits that reads
    back as [n] and, for [n] other than zero, does not start with [0]. *)
Lemma format_X_spec (n : N) :
  Forall (fun c => is_upper_hex c = true) (Py.format_X n)
  ∧ of_hex (Py.format_X n) = Some n
  ∧ (n ≠ 0 → head (Py.format_X n) ≠ Some 0x30)
  ∧ Forall (fun c => c < 0x80) (Py.format_X n).
Proof.
  unfold Py.format_X. rewrite Nat.add_1_r.
  destruct (to_digits_spec 16 _ ltac:(lia) n (size_fuel n))
    as (Hall & Hval & d & ds' & Hds & Hd).
  set (ds := Py.to_digits 16 _ n) in *.
  split; [|split; [|split]].
  - apply Forall_fmap. eapply Forall_impl; [exact Hall|].
    intros c Hc. by apply is_upper_hex_digit_char.
  - unfold of_hex. rewrite Hds at 1. simpl fmap at 1. cbv iota.
    rewrite of_hex_digit_chars by done. by rewrite <- Hval.
  - intros Hn. rewrite Hds. simpl. intros [=E]. apply (Hd Hn).
    rewrite Hds in Hall. apply Forall_cons in Hall as [Hlt _].
    revert E. unfold Py.digit_char. destruct (N.ltb_spec d 10); lia.
  - apply Forall_fmap. eapply Forall_impl; [exact Hall|].
    intros c Hc. by apply digit_char_ascii.
Qed.

(** ** Encoding ASCII text *)

Lemma encode_ascii (s : str) :
  Forall (fun c => c < 0x80) s → Py.encode s = Return (Py.byte_of_N <$> s).
Proof.
  induction 1 as [|c s Hc _ IH]; [done|].
  simpl. unfold Py.encode_char. destruct (N.ltb_spec c 128); [|lia].
  simpl. by rewrite IH.
Qed.

(** ** The writes of the chunked writer *)

Lemma for_in_app {A S} (xs ys : list A) (body : S → A → outcome S) (s : S) :
  Py.for_in (xs ++ ys) body s = (s' ← Py.for_in xs body s; Py.for_in ys body s').
Proof.
  revert s. induction xs as [|x xs IH]; intros s; [done|].
  simpl. destruct (body s x); simpl; [apply IH | done].
Qed.

Lemma send_chunk_writes (S : nat) (data : bytes) (wfile : list bytes) (i : nat) :
  send_chunk S data wfile i = Return (wfile ++ chunk_writes (Py.slice data i (i + S))).
Proof.
  unfold send_chunk, chunk_writes, write.
  rewrite encode_ascii.
  - simpl. rewrite fmap_app. by rewrite <- !app_assoc.
  - apply Forall_app. split; [apply format_X_spec | by repeat constructor].
Qed.

Lemma for_in_send_chunk (S : nat) (data : bytes) (ixs : list nat) (wfile : list bytes) :
  Py.for_in ixs (send_chunk S data) wfile
  = Return (wfile ++ concat (chunk_writes <$> ((fun i => Py.slice data i (i + S)) <$> ixs))).
Proof.
  revert wfile. induction ixs as [|i ixs IH]; intros wfile.
  - simpl. by rewrite app_nil_r.
  - simpl. rewrite send_chunk_writes. simpl. rewrite IH. by rewrite <- app_assoc.
Qed.

Lemma send_chunked_writes (S : nat) (data : bytes) (wfile : list bytes) :
  send_chunked S data wfile
  = Return (wfile ++ concat (chunk_writes <$> chunks S data) ++ [Bytes "0" ++ CRLF ++ CRLF]).
Proof.
  unfold send_chunked. rewrite for_in_send_chunk. simpl. unfold write, chunks.
  by rewrite <- app_assoc.
Qed.

Lemma chunk_writes_concat (chunk : bytes) :
  concat (chunk_writes chunk)
  = ascii_bytes (Py.format_X (N.of_nat (length chunk))) ++ CRLF ++ chunk ++ CRLF.
Proof. unfold chunk_writes. simpl. by rewrite <- !app_assoc. Qed.

Lemma do_GET_writes (gzip_compress : bytes → bytes) (wfile : list bytes) :
  do_GET gzip_compress wfile
  = send_chunked chunk_size (gzip_compress (ascii_bytes response_text)) wfile.
Proof.
  unfold do_GET. rewrite encode_ascii; [done|].
  by_compute.
Qed.

(** C1. For a chunk size [S >= 1] the writer emits [ceil(L/S)] data
    chunks for [L] compressed bytes (none when [L = 0]); the chunk of
    index [k] is the slice of [S] bytes at offset [k * S], so every chunk
    but the last has length [S]; the last has between 1 and [S] bytes;
    and the chunks, in order, concatenate to the compressed bytes. *)
Theorem chunk_size_law (S : nat) (data : bytes) (wfile : list bytes) :
  (1 ≤ S)%nat →
  send_chunked S data wfile
  = Return (wfile ++ concat (chunk_writes <$> chunks S data)
              ++ [Bytes "0" ++ CRLF ++ CRLF])
  ∧ length (chunks S data) = ((length data + S - 1) / S)%nat
  ∧ (length data ≤ length (chunks S data) * S < length data + S)%nat
  ∧ (length data = 0%nat → chunks S data = [])
  ∧ (∀ k chunk, chunks S data !! k = Some chunk →
       chunk = take S (drop (k * S) data)
       ∧ ((k + 1 < length (chunks S data))%nat → length chunk = S))
  ∧ (∀ chunk, last (chunks S data) = Some chunk → (1 ≤ length chunk ≤ S)%nat)
  ∧ concat (chunks S data) = data.
Proof.
  intros HS. split; [apply send_chunked_writes|].
  split; [apply chunks_length|].
  split; [rewrite chunks_length; by apply ceil_div_bounds|].
  split.
  { intros H0. apply length_zero_iff_nil. rewrite chunks_length, H0.
    apply Nat.div_small. lia. }
  split.
  { intros k chunk Hk. split; [by apply chunks_lookup in Hk as [_ ->]|].
    intros Hlt. destruct (chunk_length S data k chunk HS Hk) as [-> _].
    by rewrite decide_True. }
  split; [|by apply chunks_concat].
  intros chunk Hlast. rewrite last_lookup in Hlast.
  by destruct (chunk_length S data _ chunk HS Hlast) as [_ ?].
Qed.

Lemma chunk_size_law_witness :
  chunks 16 forty_bytes
  = [Bytes "0123456789abcdef"; Bytes "ghijklmnopqrstuv"; Bytes "wxyzABCD"]
  ∧ length (chunks 16 forty_bytes) = ((length forty_bytes + 16 - 1) / 16)%nat
  ∧ concat (chunks 16 forty_bytes) = forty_bytes.
Proof.
  pose proof (chunk_size_law 16 forty_bytes [] ltac:(lia)) as (_ & Hn & _ & _ & _ & _ & Hc).
  split; [reflexivity | by split].
Defined.

(** C2. Each chunk is written as its length in uppercase hexadecimal
    digits, with no leading zero and no prefix, then CRLF, the chunk and
    CRLF; after the last chunk the writer emits [0 CRLF CRLF]. *)
Theorem chunk_framing (S : nat) (data : bytes) (wfile : list bytes) :
  (1 ≤ S)%nat →
  send_chunked S data wfile
  = Return (wfile ++ concat (chunk_writes <$> chunks S data)
              ++ [Bytes "0" ++ CRLF ++ CRLF])
  ∧ ∀ chunk, chunk ∈ chunks S data →
      concat (chunk_writes chunk)
      = ascii_bytes (Py.format_X (N.of_nat (length chunk))) ++ CRLF ++ chunk ++ CRLF
      ∧ Forall (fun c => is_upper_hex c = true) (Py.format_X (N.of_nat (length chunk)))
      ∧ of_hex (Py.format_X (N.of_nat (length chunk))) = Some (N.of_nat (length chunk))
      ∧ head (Py.format_X (N.of_nat (length chunk))) ≠ Some 0x30.
Proof.
  intros HS. split; [apply send_chunked_writes|].
  intros chunk [k Hk]%list_elem_of_lookup.
  destruct (chunk_length S data k chunk HS Hk) as [_ Hlen].
  destruct (format_X_spec (N.of_nat (length chunk))) as (Hhex & Hval & Hhead & _).
  split; [apply chunk_writes_concat|]. split; [done|]. split; [done|].
  apply Hhead. lia.
Qed.

Lemma chunk_framing_witness :
  send_chunked 16 forty_bytes []
  = Return [Bytes "10" ++ CRLF; Bytes "0123456789abcdef"; CRLF;
            Bytes "10" ++ CRLF; Bytes "ghijklmnopqrstuv"; CRLF;
            Bytes "8" ++ CRLF; Bytes "wxyzABCD"; CRLF;
            Bytes "0" ++ CRLF ++ CRLF].
Proof.
  rewrite (proj1 (chunk_framing 16 forty_bytes [] ltac:(lia))). reflexivity.
Defined.

(** ** The stream *)

Lemma readline_app (req raw rest : bytes) :
  Py.readline req = (raw, rest) → req = raw ++ rest.
Proof.
  revert raw rest. induction req as [|b req IH]; intros raw rest; simpl.
  - by intros [= <- <-].
  - case_decide.
    + by intros [= <- <-].
    + destruct (Py.readline req) as [l r]. intros [= <- <-].
      simpl. f_equal. by apply IH.
Qed.

Lemma readline_line (raw rest : bytes) :
  is_line raw = true → Py.readline (raw ++ rest) = (raw, rest).
Proof.
  induction raw as [|b raw IH]; simpl; [done|].
  case_decide.
  - intros ->%bool_decide_eq_true. done.
  - intros H'. by rewrite IH.
Qed.


(** ** Decoding *)

Lemma decode_nil : Py.decode [] = Return [].
Proof. reflexivity. Qed.

Lemma byte_of_N_to_N (c : N) : c < 0x100 → Byte.to_N (Py.byte_of_N c) = c.
Proof.
  intros Hc. unfold Py.byte_of_N.
  pose proof (Byte.to_of_N_option_map c) as E.
  destruct (N.leb_spec c 255); [|lia].
  destruct (Byte.of_N c) as [b|]; simpl in *; congruence.
Qed.

Lemma utf8_scan_ascii (s : str) (bs : bytes) :
  is_ascii s →
  Py.utf8_scan Py.Start (ascii_bytes s ++ bs) = (Some <$> s) ++ Py.utf8_scan Py.Start bs.
Proof.
  induction 1 as [|c s Hc _ IH]; [done|].
  simpl. rewrite byte_of_N_to_N by lia.
  destruct (N.ltb_spec c 128); [|lia]. by rewrite IH.
Qed.

Lemma mapM_id_cons_Some {A} (c : A) (os : list (option A)) :
  mapM id (Some c :: os) = (c ::.) <$> mapM id os.
Proof. reflexivity. Qed.

Lemma mapM_id_app_Some {A} (s : list A) (os : list (option A)) :
  mapM id ((Some <$> s) ++ os) = (s ++.) <$> mapM id os.
Proof.
  induction s as [|c s IH].
  - simpl. by destruct (mapM id os).
  - rewrite fmap_cons, <- app_comm_cons, mapM_id_cons_Some, IH.
    by destruct (mapM id os).
Qed.

Lemma decode_ascii_app (s : str) (bs : bytes) :
  is_ascii s →
  Py.decode (ascii_bytes s ++ bs) = (s ++.) <$> Py.decode bs.
Proof.
  intros H. unfold Py.decode. rewrite utf8_scan_ascii, mapM_id_app_Some by done.
  by destruct (mapM id _).
Qed.

(** ** Splitting *)

Lemma cut_app (sep : N) (a b : str) :
  sep ∉ a → Py.cut sep (a ++ sep :: b) = Some (a, b).
Proof.
  induction a as [|c a IH]; intros Hnot; simpl.
  - by rewrite N.eqb_refl.
  - apply not_elem_of_cons in Hnot as [Hc Ha].
    destruct (N.eqb_spec c sep); [congruence|]. by rewrite IH.
Qed.

Lemma cut_Some (sep : N) (s a b : str) :
  Py.cut sep s = Some (a, b) → s = a ++ sep :: b ∧ sep ∉ a.
Proof.
  revert a. induction s as [|c s IH]; intros a; simpl; [done|].
  destruct (N.eqb_spec c sep) as [->|Hne].
  - intros [= <- <-]. split; [done | apply not_elem_of_nil].
  - destruct (Py.cut sep s) as [[a' b']|] eqn:E; simpl; [|done].
    intros [= <- <-]. destruct (IH a' eq_refl) as [-> Hnot].
    split; [done|]. apply not_elem_of_cons. by split; [congruence|].
Qed.

Lemma cut_None (sep : N) (s : str) : Py.cut sep s = None ↔ sep ∉ s.
Proof.
  induction s as [|c s IH]; simpl.
  - split; [intros _; apply not_elem_of_nil | done].
  - destruct (N.eqb_spec c sep) as [->|Hne].
    + split; [done | intros []; apply list_elem_of_here].
    + rewrite not_elem_of_cons, <- IH.
      destruct (Py.cut sep s) as [[a' b']|]; simpl.
      * split; [done | by intros [_ ?]].
      * split; [intros _; split; [congruence | done] | done].
Qed.

(** ** The header loop *)

Lemma read_headers_loop_S (fuel : nat) (req : bytes) (headers : gmap str str) :
  read_headers_loop (S fuel) req headers
  = let '(raw, rest) := Py.readline req in
    match Py.decode raw with
    | Raise e => Some (Raise e)
    | Return line =>
        if bool_decide (line = crlf) then Some (Return (headers, rest))
        else match Py.splitn 0x3A 1 line with
             | [header; value] =>
                 read_headers_loop fuel rest
                   (<[Py.casefold header := Py.strip value]> headers)
             | _ => Some (Raise MalformedHeader)
             end
    end.
Proof. reflexivity. Qed.

(** A turn that goes on has read at least one byte. *)
Lemma splitn_colon_nonempty (raw : bytes) (line header value : str) :
  Py.decode raw = Return line → Py.splitn 0x3A 1 line = [header; value] → raw ≠ [].
Proof. intros Hd Hs ->. rewrite decode_nil in Hd. injection Hd as <-. done. Qed.

(** The loop ends: fuel above the number of unread bytes is enough. *)
Lemma read_headers_loop_enough (fuel : nat) (req : bytes) (headers : gmap str str) :
  (length req < fuel)%nat → is_Some (read_headers_loop fuel req headers).
Proof.
  revert req headers. induction fuel as [|fuel IH]; intros req headers Hlen; [lia|].
  rewrite read_headers_loop_S.
  destruct (Py.readline req) as [raw rest] eqn:Hrl.
  destruct (Py.decode raw) as [line|e] eqn:Hd; [|by eexists].
  case_bool_decide; [by eexists|].
  destruct (Py.splitn 0x3A 1 line) as [|header [|value [|? ?]]] eqn:Hs; try by eexists.
  apply IH. apply readline_app in Hrl as ->.
  pose proof (splitn_colon_nonempty _ _ _ _ Hd Hs).
  rewrite length_app in Hlen. destruct raw; [done|simpl in Hlen; lia].
Qed.

Lemma read_headers_loop_mono (fuel fuel' : nat) (req : bytes) (headers : gmap str str) r :
  read_headers_loop fuel req headers = Some r → (fuel ≤ fuel')%nat →
  read_headers_loop fuel' req headers = Some r.
Proof.
  revert fuel' req headers. induction fuel as [|fuel IH]; intros fuel' req headers; [done|].
  intros H Hle. destruct fuel' as [|fuel']; [lia|].
  rewrite read_headers_loop_S in *.
  destruct (Py.readline req) as [raw rest].
  destruct (Py.decode raw) as [line|e]; [|done].
  case_bool_decide; [done|].
  destruct (Py.splitn 0x3A 1 line) as [|header [|value [|? ?]]]; try done.
  apply IH; [done | lia].
Qed.

(** The loop, one turn unfolded. *)
Lemma read_headers_unfold (req : bytes) (headers : gmap str str) :
  read_headers req headers
  = header_step (Py.readline req).1 (Py.readline req).2 headers read_headers.
Proof.
  unfold read_headers at 1, header_step. rewrite read_headers_loop_S.
  destruct (Py.readline req) as [raw rest] eqn:Hrl; cbn [fst snd].
  destruct (Py.decode raw) as [line|e] eqn:Hd; [|done].
  case_bool_decide; [done|].
  destruct (Py.splitn 0x3A 1 line) as [|header [|value [|? ?]]] eqn:Hs; try done.
  unfold read_headers.
  destruct (read_headers_loop_enough (S (length rest)) rest
              (<[Py.casefold header := Py.strip value]> headers)) as [r Hr]; [lia|].
  rewrite Hr. erewrite read_headers_loop_mono; [done | exact Hr |].
  apply readline_app in Hrl as ->.
  pose proof (splitn_colon_nonempty _ _ _ _ Hd Hs).
  rewrite length_app. destruct raw; [done|simpl; lia].
Qed.

Lemma read_headers_total (req : bytes) (headers : gmap str str) :
  read_headers_loop (S (length req)) req headers = Some (read_headers req headers).
Proof.
  unfold read_headers.
  destruct (read_headers_loop_enough (S (length req)) req headers) as [r ->]; [lia|done].
Qed.

Lemma line_with_colon_not_blank (name value : str) : name ++ 0x3A :: value ≠ crlf.
Proof.
  intros E. assert (0x3A ∉ crlf) as H by (by_compute).
  apply H. rewrite <- E. apply elem_of_app. right. apply list_elem_of_here.
Qed.

Lemma splitn_colon (name value : str) :
  0x3A ∉ name → Py.splitn 0x3A 1 (name ++ 0x3A :: value) = [name; value].
Proof. intros H. simpl. by rewrite cut_app. Qed.

Lemma header_step_header (raw rest : bytes) (name value : str) headers continue :
  Py.decode raw = Return (name ++ 0x3A :: value) → 0x3A ∉ name →
  header_step raw rest headers continue
  = continue rest (<[Py.casefold name := Py.strip value]> headers).
Proof.
  intros Hd Hn. unfold header_step. rewrite Hd.
  rewrite bool_decide_eq_false_2 by apply line_with_colon_not_blank.
  by rewrite splitn_colon.
Qed.

Lemma read_headers_header_line (raw tail : bytes) (name value : str) headers :
  header_line raw name value →
  read_headers (raw ++ tail) headers
  = read_headers tail (<[Py.casefold name := Py.strip value]> headers).
Proof.
  intros (Hl & Hd & Hn). rewrite read_headers_unfold, readline_line by done.
  by apply header_step_header.
Qed.

Lemma read_headers_blank (tail : bytes) headers :
  read_headers (CRLF ++ tail) headers = Return (headers, tail).
Proof. by rewrite read_headers_unfold. Qed.

Lemma read_headers_lines (raws : list bytes) (fields : list (str * str)) tail headers :
  Forall2 (fun raw f => header_line raw f.1 f.2) raws fields →
  read_headers (concat raws ++ tail) headers
  = read_headers tail (store_headers headers fields).
Proof.
  intros H. revert headers. induction H as [|raw f raws fields Hf _ IH]; intros headers.
  - done.
  - simpl. rewrite <- app_assoc, (read_headers_header_line _ _ _ _ _ Hf). apply IH.
Qed.

Lemma store_headers_app headers (fs gs : list (str * str)) :
  store_headers headers (fs ++ gs) = store_headers (store_headers headers fs) gs.
Proof. apply foldl_app. Qed.

Lemma store_headers_other (headers : gmap str str) (fields : list (str * str)) (key : str) :
  Forall (fun f => Py.casefold f.1 ≠ key) fields →
  store_headers headers fields !! key = headers !! key.
Proof.
  intros H. revert headers. induction H as [|f fields Hf _ IH]; intros headers; [done|].
  simpl. rewrite IH. by apply lookup_insert_ne.
Qed.

Lemma store_headers_last (headers : gmap str str) (before after : list (str * str))
    (name value : str) :
  Forall (fun f => Py.casefold f.1 ≠ Py.casefold name) after →
  store_headers headers (before ++ (name, value) :: after) !! Py.casefold name
  = Some (Py.strip value).
Proof.
  intros H. rewrite store_headers_app. simpl.
  rewrite store_headers_other by done. apply lookup_insert_eq.
Qed.

(** C3, amended. In a header section whose names are all ASCII, when two
    header lines have names that are equal after case folding, the header
    map binds the folded name to the stripped value of the last line with
    that name: each line overwrites the entry of an earlier one, so the
    last occurrence wins. (On ASCII names [Py.casefold] is [str.casefold];
    names with other characters are not covered.) *)
Theorem duplicate_header_last_wins
    (raws : list bytes) (before between after : list (str * str))
    (name1 value1 name2 value2 : str) (tail : bytes) :
  Forall2 (fun raw f => header_line raw f.1 f.2) raws
    (before ++ (name1, value1) :: between ++ (name2, value2) :: after) →
  Forall (fun f => is_ascii f.1)
    (before ++ (name1, value1) :: between ++ (name2, value2) :: after) →
  Py.casefold name1 = Py.casefold name2 →
  Forall (fun f => Py.casefold f.1 ≠ Py.casefold name2) after →
  ∃ headers,
    read_headers (concat raws ++ CRLF ++ tail) ∅ = Return (headers, tail)
    ∧ headers !! Py.casefold name1 = Some (Py.strip value2).
Proof.
  intros Hlines _ Hfold Hafter. eexists. split.
  - rewrite (read_headers_lines _ _ _ _ Hlines). apply read_headers_blank.
  - rewrite Hfold.
    replace (before ++ (name1, value1) :: between ++ (name2, value2) :: after)
      with ((before ++ (name1, value1) :: between) ++ (name2, value2) :: after)
      by (by rewrite <- app_assoc).
    by apply store_headers_last.
Qed.

Lemma duplicate_header_last_wins_witness :
  ∃ headers,
    read_headers (Bytes "A: 1" ++ CRLF ++ Bytes "a: 2" ++ CRLF ++ CRLF) ∅
    = Return (headers, [])
    ∧ headers !! Str "a" = Some (Str "2").
Proof.
  apply (duplicate_header_last_wins
           [Bytes "A: 1" ++ CRLF; Bytes "a: 2" ++ CRLF] [] [] []
           (Str "A") (Str " 1" ++ crlf) (Str "a") (Str " 2" ++ crlf) []).
  - cbn [app].
    repeat (constructor; [split; [reflexivity | split; [reflexivity |]] |]).
    + by_compute.
    + by_compute.
    + constructor.
  - cbn [app]. repeat (constructor; [by_compute|]). constructor.
  - reflexivity.
  - constructor.
Defined.

(** C3 as stated fails: for [A: 1] followed by [a: 2] the map binds [a] to
    [2], the value of the second line, not to [1]. *)
Lemma duplicate_header_first_does_not_win :
  read_headers (Bytes "A: 1" ++ CRLF ++ Bytes "a: 2" ++ CRLF ++ CRLF) ∅
  = Return ({[Str "a" := Str "2"]}, [])
  ∧ ({[Str "a" := Str "2"]} : gmap str str) !! Str "a" ≠ Some (Str "1").
Proof. split; [by vm_compute | by vm_compute]. Qed.

(** ** Case folding and stripping *)








Lemma clean_lstrip (s : str) : clean s → Py.lstrip s = s.
Proof. destruct s as [|c s]; simpl; [done|]. by intros ->. Qed.




(** ** Every stored key is folded, every stored value stripped *)




(** ** Requests that differ in the case of a header name *)




Lemma parse_request_line (reqline tail : bytes) :
  is_line reqline = true →
  parse_request (reqline ++ tail)
  = (text ← Py.decode reqline;
     match Py.splitn 0x20 2 text with
     | [method; url; version] =>
         if bool_decide (method ∈ [Str "GET"; Str "POST"])
         then read_rest method url version tail
         else Raise UnsupportedMethod
     | _ => Raise MalformedRequestLine
     end).
Proof. intros H. unfold parse_request. by rewrite readline_line. Qed.



(** ** The body *)

Lemma read_body_declared (hs : gmap str str) (req : bytes) (value : str) (n : nat) :
  hs !! Str "content-length" = Some value → Py.int value = Some (Z.of_nat n) →
  read_body hs req
  = (text ← Py.decode (take n req); Return (Some text, drop n req)).
Proof.
  intros Hv Hi. unfold read_body, Py.read. rewrite Hv, Hi.
  destruct (Z.ltb_spec (Z.of_nat n) (-1)); [lia|].
  destruct (Z.eqb_spec (Z.of_nat n) (-1)); [lia|].
  by rewrite Nat2Z.id.
Qed.

Lemma read_rest_lines (m u v : str) (raws : list bytes) (fields : list (str * str))
    (payload : bytes) :
  Forall2 (fun raw f => header_line raw f.1 f.2) raws fields →
  read_rest m u v (concat raws ++ CRLF ++ payload)
  = ('(text, rest) ← read_body (store_headers ∅ fields) payload;
     Return (Request m u v (store_headers ∅ fields) text, rest)).
Proof.
  intros H. unfold read_rest.
  by rewrite (read_headers_lines _ _ _ _ H), read_headers_blank.
Qed.




(** ** The request line *)

Lemma splitn_2_cases (sep : N) (text : str) :
  (Py.splitn sep 2 text = [text] ∧ (sep ∉ text))
  ∨ (∃ a b, Py.splitn sep 2 text = [a; b] ∧ text = a ++ (sep :: b) ∧ (sep ∉ a) ∧ (sep ∉ b))
  ∨ (∃ a b c, Py.splitn sep 2 text = [a; b; c]
              ∧ text = a ++ (sep :: b ++ (sep :: c)) ∧ (sep ∉ a) ∧ (sep ∉ b)).
Proof.
  simpl. destruct (Py.cut sep text) as [[a rest]|] eqn:E1.
  - apply cut_Some in E1 as [-> Ha].
    destruct (Py.cut sep rest) as [[b c]|] eqn:E2.
    + apply cut_Some in E2 as [-> Hb]. right. right. by exists a, b, c.
    + apply cut_None in E2. right. left. by exists a, rest.
  - apply cut_None in E1. by left.
Qed.

Lemma read_rest_fields (m u v : str) (req : bytes) (r : request) (rest : bytes) :
  read_rest m u v req = Return (r, rest) → method r = m ∧ url r = u ∧ version r = v.
Proof.
  unfold read_rest. destruct (read_headers req ∅) as [[hs req']|e]; [|done].
  cbn [mbind outcome_bind].
  destruct (read_body hs req') as [[b req'']|e]; [|done].
  cbn [mbind outcome_bind]. by intros [= <- <-].
Qed.

(** C6. The first line, decoded, is split at its first two spaces. With
    fewer than three tokens parsing raises at the unpacking
    ([MalformedRequestLine]). With three, the first is the method, the
    second the url and the remainder of the line, terminator included, the
    version: these are the fields of every request that is returned. *)
Theorem request_line_tokens (req raw rest : bytes) (reqline : str) :
  Py.readline req = (raw, rest) →
  Py.decode raw = Return reqline →
  ((length (Py.splitn 0x20 2 reqline) < 3)%nat →
   parse_request req = Raise MalformedRequestLine)
  ∧ ((3 ≤ length (Py.splitn 0x20 2 reqline))%nat →
     ∃ m u v,
       Py.splitn 0x20 2 reqline = [m; u; v]
       ∧ reqline = m ++ (0x20 :: u ++ (0x20 :: v)) ∧ (0x20 ∉ m) ∧ (0x20 ∉ u)
       ∧ parse_request req
         = (if bool_decide (m ∈ [Str "GET"; Str "POST"])
            then read_rest m u v rest else Raise UnsupportedMethod)
       ∧ ∀ r rest',
           parse_request req = Return (r, rest') →
           method r = m ∧ url r = u ∧ version r = v).
Proof.
  intros Hrl Hd. unfold parse_request. rewrite Hrl, Hd.
  cbn [mbind outcome_bind].
  destruct (splitn_2_cases 0x20 reqline)
    as [[-> _]|[(a & b & -> & _)|(m & u & v & -> & -> & Hm & Hu)]].
  - split; [done | simpl; lia].
  - split; [done | simpl; lia].
  - split; [simpl; lia|]. intros _. exists m, u, v.
    repeat (split; [done|]).
    case_bool_decide; [|done]. apply read_rest_fields.
Qed.

Lemma request_line_tokens_witness :
  parse_request (Bytes "GET" ++ CRLF ++ CRLF) = Raise MalformedRequestLine
  ∧ ∃ m u v,
      Py.splitn 0x20 2 (Str "GET / HTTP/1.0" ++ crlf) = [m; u; v]
      ∧ Str "GET / HTTP/1.0" ++ crlf = m ++ (0x20 :: u ++ (0x20 :: v))
      ∧ (0x20 ∉ m) ∧ (0x20 ∉ u)
      ∧ parse_request (Bytes "GET / HTTP/1.0" ++ CRLF ++ CRLF)
        = (if bool_decide (m ∈ [Str "GET"; Str "POST"])
           then read_rest m u v CRLF else Raise UnsupportedMethod)
      ∧ ∀ r rest',
          parse_request (Bytes "GET / HTTP/1.0" ++ CRLF ++ CRLF) = Return (r, rest') →
          method r = m ∧ url r = u ∧ version r = v.
Proof.
  split.
  - apply (request_line_tokens (Bytes "GET" ++ CRLF ++ CRLF)
             (Bytes "GET" ++ CRLF) CRLF (Str "GET" ++ crlf));
      [reflexivity | reflexivity | simpl; lia].
  - apply (request_line_tokens (Bytes "GET / HTTP/1.0" ++ CRLF ++ CRLF)
             (Bytes "GET / HTTP/1.0" ++ CRLF) CRLF (Str "GET / HTTP/1.0" ++ crlf));
      [reflexivity | reflexivity | simpl; lia].
Defined.

(** ** The assertion on the method *)

Lemma decode_Raise (bs : bytes) (e : error) :
  Py.decode bs = Raise e → e = UnicodeDecodeError.
Proof. unfold Py.decode. destruct (mapM id _); [done | by intros [= <-]]. Qed.

Lemma read_headers_loop_errors (fuel : nat) (req : bytes) (hs : gmap str str) (e : error) :
  read_headers_loop fuel req hs = Some (Raise e) →
  e = UnicodeDecodeError ∨ e = MalformedHeader.
Proof.
  revert req hs. induction fuel as [|fuel IH]; intros req hs; [done|].
  rewrite read_headers_loop_S. destruct (Py.readline req) as [raw rest].
  destruct (Py.decode raw) as [line|e'] eqn:Hd.
  - case_bool_decide; [done|].
    destruct (Py.splitn 0x3A 1 line) as [|header [|value [|? ?]]];
      try (intros [= <-]; by right).
    apply IH.
  - intros [= <-]. left. by eapply decode_Raise.
Qed.

Lemma read_body_errors (hs : gmap str str) (req : bytes) (e : error) :
  read_body hs req = Raise e →
  e = InvalidContentLength ∨ e = InvalidReadLength ∨ e = UnicodeDecodeError.
Proof.
  unfold read_body, Py.read. destruct (hs !! Str "content-length"); [|done].
  destruct (Py.int s) as [n|]; [|intros [= <-]; by left].
  destruct (n <? -1)%Z; [intros [= <-]; by right; left|].
  destruct (n =? -1)%Z; cbn [mbind outcome_bind];
    (destruct (Py.decode _) eqn:Hd; [done|]); intros [= <-];
    right; right; by eapply decode_Raise.
Qed.

Lemma read_rest_not_UnsupportedMethod (m u v : str) (req : bytes) :
  read_rest m u v req ≠ Raise UnsupportedMethod.
Proof.
  unfold read_rest. destruct (read_headers req ∅) as [[hs req']|e] eqn:Hh.
  - cbn [mbind outcome_bind].
    destruct (read_body hs req') as [[b req'']|e] eqn:Hb; [done|].
    cbn [mbind outcome_bind]. intros [= ->].
    apply read_body_errors in Hb. by destruct Hb as [?|[?|?]].
  - cbn [mbind outcome_bind]. intros [= ->].
    pose proof (read_headers_total req ∅) as Ht. rewrite Hh in Ht.
    apply read_headers_loop_errors in Ht. by destruct Ht.
Qed.

(** C7. When the method is neither GET nor POST the assertion fails and
    parsing raises [UnsupportedMethod]; when it is GET or POST parsing goes
    on with the headers and the body, and does not raise
    [UnsupportedMethod]. *)
Theorem method_assertion (req raw rest : bytes) (reqline m u v : str) :
  Py.readline req = (raw, rest) →
  Py.decode raw = Return reqline →
  Py.splitn 0x20 2 reqline = [m; u; v] →
  (m ≠ Str "GET" → m ≠ Str "POST" → parse_request req = Raise UnsupportedMethod)
  ∧ (m = Str "GET" ∨ m = Str "POST" →
     parse_request req = read_rest m u v rest
     ∧ parse_request req ≠ Raise UnsupportedMethod).
Proof.
  intros Hrl Hd Hs. unfold parse_request. rewrite Hrl, Hd.
  cbn [mbind outcome_bind]. rewrite Hs. split.
  - intros H1 H2. rewrite bool_decide_eq_false_2; [done|].
    rewrite !elem_of_cons, elem_of_nil. tauto.
  - intros H. rewrite bool_decide_eq_true_2.
    + split; [done | apply read_rest_not_UnsupportedMethod].
    + rewrite !elem_of_cons. tauto.
Qed.

Lemma method_assertion_witness :
  parse_request (Bytes "PUT / HTTP/1.0" ++ CRLF ++ CRLF) = Raise UnsupportedMethod
  ∧ parse_request (Bytes "GET / HTTP/1.0" ++ CRLF ++ CRLF)
    = read_rest (Str "GET") (Str "/") (Str "HTTP/1.0" ++ crlf) CRLF
  ∧ parse_request (Bytes "GET / HTTP/1.0" ++ CRLF ++ CRLF) ≠ Raise UnsupportedMethod.
Proof.
  split.
  - apply (method_assertion (Bytes "PUT / HTTP/1.0" ++ CRLF ++ CRLF)
             (Bytes "PUT / HTTP/1.0" ++ CRLF) CRLF (Str "PUT / HTTP/1.0" ++ crlf)
             (Str "PUT") (Str "/") (Str "HTTP/1.0" ++ crlf));
      [reflexivity | reflexivity | reflexivity | done | done].
  - apply (method_assertion (Bytes "GET / HTTP/1.0" ++ CRLF ++ CRLF)
             (Bytes "GET / HTTP/1.0" ++ CRLF) CRLF (Str "GET / HTTP/1.0" ++ crlf)
             (Str "GET") (Str "/") (Str "HTTP/1.0" ++ crlf));
      [reflexivity | reflexivity | reflexivity | by left].
Defined.

(** ** Form decoding *)

Lemma split_spec (sep : N) (s : str) :
  ∃ field fields,
    Py.split sep s = field :: fields
    ∧ Forall (fun f => sep ∉ f) (field :: fields)
    ∧ s = foldl (fun acc f => acc ++ (sep :: f)) field fields.
Proof.
  induction s as [|c s (field & fields & Hs & Hall & Hj)]; simpl.
  - exists [], []. split; [done|]. split; [|done]. repeat constructor. apply not_elem_of_nil.
  - rewrite Hs. destruct (N.eqb_spec c sep) as [->|Hne].
    + exists [], (field :: fields). split; [done|]. split.
      * constructor; [apply not_elem_of_nil | done].
      * simpl. rewrite Hj at 1. clear. revert field.
        induction fields as [|f fields IH]; intros field; [done|]. simpl.
        rewrite IH. f_equal.
    + exists (c :: field), fields. split; [done|]. split.
      * apply Forall_cons in Hall as [Hf Hall]. constructor; [|done].
        apply not_elem_of_cons. by split; [congruence|].
      * rewrite Hj at 1. clear. revert field.
        induction fields as [|f fields IH]; intros field; [done|]. simpl.
        by rewrite IH.
Qed.

Lemma store_field_cases (params : gmap str str) (field : str) :
  ((0x3D ∉ field) ∧ store_field params field = Raise MissingEquals)
  ∨ (∃ name value, field = name ++ (0x3D :: value) ∧ (0x3D ∉ name)
       ∧ store_field params field
         = Return (<[Py.unquote_plus name := Py.unquote_plus value]> params)).
Proof.
  unfold store_field. simpl. destruct (Py.cut 0x3D field) as [[name value]|] eqn:E.
  - apply cut_Some in E as [-> Hn]. right. by exists name, value.
  - apply cut_None in E. by left.
Qed.

Lemma for_in_store_field (fields : list str) (params : gmap str str) :
  (Exists (fun f => 0x3D ∉ f) fields
   ∧ Py.for_in fields store_field params = Raise MissingEquals)
  ∨ (∃ pairs,
       Forall2 (fun f p => f = p.1 ++ (0x3D :: p.2) ∧ 0x3D ∉ p.1) fields pairs
       ∧ Py.for_in fields store_field params = Return (store_params params pairs)).
Proof.
  revert params. induction fields as [|f fields IH]; intros params.
  - right. exists []. split; [constructor | done].
  - simpl. destruct (store_field_cases params f) as [[Hf ->]|(name & value & -> & Hn & ->)].
    + left. split; [by apply Exists_cons_hd | done].
    + cbn [mbind outcome_bind].
      destruct (IH (<[Py.unquote_plus name := Py.unquote_plus value]> params))
        as [[Hex ->]|(pairs & Hp & ->)].
      * left. split; [by apply Exists_cons_tl | done].
      * right. exists ((name, value) :: pairs). split; [|done].
        constructor; [by split | done].
Qed.

(** C5. [form_decode] splits the body at every [&]; when some field has no
    [=] it raises [MissingEquals]; otherwise every field is a name, the
    first [=] and a value, and the result maps the unquoted names to the
    unquoted values, fields being stored from left to right. The body
    [guest=Hello+World%21] gives the map with [guest] bound to
    [Hello World!]. *)
Theorem form_decode_fields (body : str) :
  Forall (fun f => 0x26 ∉ f) (Py.split 0x26 body)
  ∧ (∃ field rest, Py.split 0x26 body = field :: rest
       ∧ body = foldl (fun acc f => acc ++ (0x26 :: f)) field rest)
  ∧ (Exists (fun f => 0x3D ∉ f) (Py.split 0x26 body) →
     form_decode (Some body) = Raise MissingEquals)
  ∧ (Forall (fun f => 0x3D ∈ f) (Py.split 0x26 body) →
     ∃ pairs,
       Forall2 (fun f p => f = p.1 ++ (0x3D :: p.2) ∧ 0x3D ∉ p.1)
         (Py.split 0x26 body) pairs
       ∧ form_decode (Some body)
         = Return (foldl (fun params p =>
                            <[Py.unquote_plus p.1 := Py.unquote_plus p.2]> params)
                     ∅ pairs))
  ∧ form_decode (Some (Str "guest=Hello+World%21"))
    = Return {[Str "guest" := Str "Hello World!"]}.
Proof.
  destruct (split_spec 0x26 body) as (field & rest & Hs & Hall & Hj).
  split; [by rewrite Hs|]. split; [by exists field, rest|].
  change (form_decode (Some body)) with (Py.for_in (Py.split 0x26 body) store_field ∅).
  destruct (for_in_store_field (Py.split 0x26 body) ∅) as [[Hex ->]|(pairs & Hp & ->)].
  - split; [done|]. split; [|by vm_compute].
    intros Hall'. apply Exists_exists in Hex as (f & Hin & Hf).
    by eapply Forall_forall in Hall'.
  - split; [|split; [by exists pairs | by vm_compute]].
    intros Hex. apply Exists_exists in Hex as (f & Hin & Hf).
    apply list_elem_of_lookup in Hin as [i Hi].
    destruct (Forall2_lookup_l _ _ _ _ _ Hp Hi) as (p & _ & -> & _).
    exfalso. apply Hf. apply elem_of_app. right. apply list_elem_of_here.
Qed.

Lemma form_decode_fields_witness :
  form_decode (Some (Str "a=1&b")) = Raise MissingEquals.
Proof.
  apply (form_decode_fields (Str "a=1&b")).
  apply Exists_cons_tl, Exists_cons_hd. by_compute.
Defined.

(** ** The dispatcher *)

(** C9. [do_request] appends exactly the decoded [guest] value at the end
    of the entry list on a POST to [/add] whose form has the key [guest];
    in every other case, an exception included, it leaves the list as it
    is. [handle_connection] changes the list only through [do_request]. *)
Theorem entries_frame (m u : str) (hs : gmap str str)
    (b : option str) (ENTRIES : list str) :
  (∀ params guest,
     m = Str "POST" → u = Str "/add" →
     form_decode b = Return params → params !! Str "guest" = Some guest →
     (do_request m u hs b ENTRIES).2 = ENTRIES ++ [guest])
  ∧ (¬ (m = Str "POST" ∧ u = Str "/add"
        ∧ ∃ params, form_decode b = Return params
                    ∧ is_Some (params !! Str "guest")) →
     (do_request m u hs b ENTRIES).2 = ENTRIES)
  ∧ ∀ conx,
      (handle_connection conx ENTRIES).2
      = match parse_request conx with
        | Return (r, _) =>
            (do_request (method r) (url r) (headers r)
               (body r) ENTRIES).2
        | Raise _ => ENTRIES
        end.
Proof.
  split; [|split].
  - intros params guest -> -> Hf Hg. unfold do_request, add_entry.
    by rewrite Hf, Hg.
  - intros Hnot. unfold do_request, add_entry.
    destruct (bool_decide (m = Str "GET") && bool_decide (u = Str "/")); [done|].
    destruct (bool_decide (m = Str "POST")) eqn:Em; [|done].
    destruct (bool_decide (u = Str "/add")) eqn:Eu; [|done].
    apply bool_decide_eq_true_1 in Em, Eu. cbn [andb].
    destruct (form_decode b) as [params|e] eqn:Ef; [|done].
    destruct (params !! Str "guest") as [guest|] eqn:Eg; [|done].
    exfalso. apply Hnot. repeat (split; [done|]). exists params. by rewrite Eg.
  - intros conx. unfold handle_connection.
    destruct (parse_request conx) as [[r rest]|e]; [|done].
    by destruct (do_request _ _ _ _ _) as [[[status page]|e] E'].
Qed.

Lemma entries_frame_witness :
  (do_request (Str "POST") (Str "/add") ∅ (Some (Str "guest=hello")) ENTRIES_initial).2
  = ENTRIES_initial ++ [Str "hello"].
Proof.
  apply (proj1 (entries_frame (Str "POST") (Str "/add") ∅ (Some (Str "guest=hello"))
                  ENTRIES_initial) {[Str "guest" := Str "hello"]} (Str "hello")).
  - reflexivity.
  - reflexivity.
  - by vm_compute.
  - by vm_compute.
Defined.

(** C10. Whenever [do_request] returns, the status is [200 OK] or
    [404 Not Found]. *)
Theorem status_is_200_or_404 (method url : str) (headers : gmap str str)
    (body : option str) (ENTRIES ENTRIES' : list str) (status page : str) :
  do_request method url headers body ENTRIES = (Return (status, page), ENTRIES') →
  status = Str "200 OK" ∨ status = Str "404 Not Found".
Proof.
  unfold do_request.
  destruct (bool_decide (method = Str "GET") && bool_decide (url = Str "/")).
  { intros [= <- _ _]. by left. }
  destruct (bool_decide (method = Str "POST") && bool_decide (url = Str "/add")).
  - destruct (form_decode body) as [params|e]; [|done].
    destruct (add_entry params ENTRIES). intros [= <- _ _]. by left.
  - intros [= <- _ _]. by right.
Qed.

Lemma status_is_200_or_404_witness :
  Str "404 Not Found" = Str "200 OK" ∨ Str "404 Not Found" = Str "404 Not Found".
Proof.
  apply (status_is_200_or_404 (Str "GET") (Str "/missing") ∅ None
           ENTRIES_initial ENTRIES_initial (Str "404 Not Found")
           (not_found (Str "/missing") (Str "GET"))).
  reflexivity.
Defined.

(** * Further properties *)

(** ** The page *)

Lemma foldl_app_concat {A} (f : A → str) (xs : list A) (out : str) :
  foldl (fun out x => out ++ f x) out xs = out ++ concat (f <$> xs).
Proof.
  revert out. induction xs as [|x xs IH]; intros out; simpl.
  - by rewrite app_nil_r.
  - by rewrite IH, <- app_assoc.
Qed.

(** X1. The page of [show_comments] is the doctype, one [<p>entry</p>]
    per entry in the order of the list, and the form; the entry added last
    stands just before the form. *)
Theorem show_comments_page (ENTRIES : list str) :
  show_comments ENTRIES
  = Str "<!doctype html>"
    ++ concat ((fun entry => Str "<p>" ++ entry ++ Str "</p>") <$> ENTRIES)
    ++ form_markup
  ∧ ∀ guest,
      show_comments (ENTRIES ++ [guest])
      = Str "<!doctype html>"
        ++ concat ((fun entry => Str "<p>" ++ entry ++ Str "</p>") <$> ENTRIES)
        ++ (Str "<p>" ++ guest ++ Str "</p>") ++ form_markup.
Proof.
  assert (∀ E, show_comments E
    = Str "<!doctype html>"
      ++ concat ((fun entry => Str "<p>" ++ entry ++ Str "</p>") <$> E)
      ++ form_markup) as H.
  { intros E. unfold show_comments. rewrite foldl_app_concat.
    rewrite <- !app_assoc. reflexivity. }
  split; [apply H|]. intros guest.
  rewrite H, fmap_app, concat_app, <- !app_assoc. do 2 f_equal.
  change (concat (_ <$> [guest])) with ((Str "<p>" ++ guest ++ Str "</p>") ++ []).
  by rewrite app_nil_r, <- !app_assoc.
Qed.

(** ** Exceptions of the dispatcher *)

Lemma form_decode_errors (b : option str) (e : error) :
  form_decode b = Raise e →
  (b = None ∧ e = MissingBody) ∨ (∃ text, b = Some text ∧ e = MissingEquals).
Proof.
  destruct b as [text|]; [|intros [= <-]; by left].
  change (form_decode (Some text)) with (Py.for_in (Py.split 0x26 text) store_field ∅).
  destruct (for_in_store_field (Py.split 0x26 text) ∅) as [[_ ->]|(pairs & _ & ->)];
    [|done].
  intros [= <-]. right. by exists text.
Qed.

Lemma do_request_raises_only (m u : str) (hs : gmap str str) (b : option str)
    (ENTRIES ENTRIES' : list str) (e : error) :
  do_request m u hs b ENTRIES = (Raise e, ENTRIES') →
  m = Str "POST" ∧ u = Str "/add" ∧ ENTRIES' = ENTRIES
  ∧ ((b = None ∧ e = MissingBody) ∨ (∃ text, b = Some text ∧ e = MissingEquals)).
Proof.
  unfold do_request.
  destruct (bool_decide (m = Str "GET") && bool_decide (u = Str "/")); [done|].
  destruct (bool_decide (m = Str "POST")) eqn:Em; [|done].
  destruct (bool_decide (u = Str "/add")) eqn:Eu; [|done].
  apply bool_decide_eq_true_1 in Em, Eu. cbn [andb].
  destruct (form_decode b) as [params|e'] eqn:Ef.
  - by destruct (add_entry params ENTRIES).
  - intros [= <- <-]. repeat (split; [done|]). by apply form_decode_errors.
Qed.

(** X2. [do_request] raises only on a POST to [/add]: [MissingBody] when
    there is no body, [MissingEquals] when a field has no [=]; the entry
    list is then unchanged. *)
Theorem do_request_raises (m u : str) (hs : gmap str str) (b : option str)
    (ENTRIES ENTRIES' : list str) (e : error) :
  do_request m u hs b ENTRIES = (Raise e, ENTRIES') →
  m = Str "POST" ∧ u = Str "/add" ∧ ENTRIES' = ENTRIES
  ∧ ((b = None ∧ e = MissingBody) ∨ (∃ text, b = Some text ∧ e = MissingEquals)).
Proof. apply do_request_raises_only. Qed.

Lemma do_request_raises_witness :
  Str "POST" = Str "POST" ∧ Str "/add" = Str "/add" ∧ ENTRIES_initial = ENTRIES_initial
  ∧ ((Some (Str "guest") = None ∧ MissingEquals = MissingBody)
     ∨ (∃ text, Some (Str "guest") = Some text ∧ MissingEquals = MissingEquals)).
Proof.
  apply (do_request_raises (Str "POST") (Str "/add") ∅ (Some (Str "guest"))
           ENTRIES_initial ENTRIES_initial MissingEquals).
  by vm_compute.
Defined.

(** ** Splitting and joining *)

Lemma split_no_sep (sep : N) (s : str) : sep ∉ s → Py.split sep s = [s].
Proof.
  induction s as [|c s IH]; intros H; [done|].
  apply not_elem_of_cons in H as [Hc Hs]. simpl.
  destruct (N.eqb_spec c sep); [congruence|]. by rewrite IH.
Qed.

Lemma split_app_sep (sep : N) (f s : str) :
  sep ∉ f → Py.split sep (f ++ sep :: s) = f :: Py.split sep s.
Proof.
  induction f as [|c f IH]; intros H; simpl.
  - by rewrite N.eqb_refl.
  - apply not_elem_of_cons in H as [Hc Hf].
    destruct (N.eqb_spec c sep); [congruence|]. by rewrite IH.
Qed.

Lemma split_joined (sep : N) (fields : list str) :
  fields ≠ [] → Forall (fun f => sep ∉ f) fields →
  Py.split sep (joined sep fields) = fields.
Proof.
  intros Hne Hall. induction Hall as [|f fields Hf Hall IH]; [done|].
  destruct fields as [|g fields].
  - simpl. by apply split_no_sep.
  - change (joined sep (f :: g :: fields)) with (f ++ sep :: joined sep (g :: fields)).
    rewrite split_app_sep by done. f_equal. by apply IH.
Qed.

(** ** Form bodies *)

Lemma store_field_pair (params : gmap str str) (name value : str) :
  0x3D ∉ name →
  store_field params (name ++ 0x3D :: value)
  = Return (<[Py.unquote_plus name := Py.unquote_plus value]> params).
Proof. intros H. unfold store_field. simpl. by rewrite cut_app. Qed.

Lemma for_in_store_pairs (pairs : list (str * str)) (params : gmap str str) :
  Forall (fun p => 0x3D ∉ p.1) pairs →
  Py.for_in ((fun p => p.1 ++ 0x3D :: p.2) <$> pairs) store_field params
  = Return (store_params params pairs).
Proof.
  intros H. revert params. induction H as [|[n v] pairs Hn _ IH]; intros params; [done|].
  simpl. rewrite store_field_pair by done. apply IH.
Qed.

Lemma store_params_other (params : gmap str str) (pairs : list (str * str)) (key : str) :
  Forall (fun p => Py.unquote_plus p.1 ≠ key) pairs →
  store_params params pairs !! key = params !! key.
Proof.
  intros H. revert params. induction H as [|p pairs Hp _ IH]; intros params; [done|].
  simpl. rewrite IH. by apply lookup_insert_ne.
Qed.

Lemma form_body_fields (pairs : list (str * str)) :
  pairs ≠ [] → Forall well_formed_pair pairs →
  Py.split 0x26 (form_body pairs) = (fun p => p.1 ++ 0x3D :: p.2) <$> pairs.
Proof.
  intros Hne Hall. unfold form_body. apply split_joined.
  - by destruct pairs.
  - apply Forall_fmap. eapply Forall_impl; [exact Hall|].
    intros [n v] (H1 & H2 & H3). simpl in *.
    rewrite not_elem_of_app, not_elem_of_cons. by repeat split.
Qed.

Lemma form_decode_pairs (pairs : list (str * str)) :
  pairs ≠ [] → Forall well_formed_pair pairs →
  form_decode (Some (form_body pairs))
  = Return (foldl (fun params p =>
                     <[Py.unquote_plus p.1 := Py.unquote_plus p.2]> params) ∅ pairs).
Proof.
  intros Hne Hall.
  change (form_decode (Some (form_body pairs)))
    with (Py.for_in (Py.split 0x26 (form_body pairs)) store_field ∅).
  rewrite form_body_fields by done. apply for_in_store_pairs.
  eapply Forall_impl; [exact Hall|]. by intros p [? _].
Qed.

(** X3. A form body made of [name=value] fields joined by [&] (no [=] or
    [&] in a name, no [&] in a value, at least one field) decodes to the
    map of the unquoted names to the unquoted values, stored from left to
    right. *)
Theorem form_decode_form_body (pairs : list (str * str)) :
  pairs ≠ [] → Forall well_formed_pair pairs →
  form_decode (Some (form_body pairs))
  = Return (foldl (fun params p =>
                     <[Py.unquote_plus p.1 := Py.unquote_plus p.2]> params) ∅ pairs).
Proof. apply form_decode_pairs. Qed.

Lemma form_decode_form_body_witness :
  form_decode (Some (Str "a=1&b=x=y"))
  = Return (<[Str "b" := Str "x=y"]> (<[Str "a" := Str "1"]> ∅)).
Proof.
  apply (form_decode_form_body [(Str "a", Str "1"); (Str "b", Str "x=y")]); [done|].
  repeat (constructor; [repeat split; by_compute|]). constructor.
Defined.

(** X4. When a form body carries the same decoded name more than once,
    the decoded map binds it to the value of the last such field. *)
Theorem form_decode_last_field_wins
    (before after : list (str * str)) (name value : str) :
  Forall well_formed_pair (before ++ (name, value) :: after) →
  Forall (fun p => Py.unquote_plus p.1 ≠ Py.unquote_plus name) after →
  ∃ params,
    form_decode (Some (form_body (before ++ (name, value) :: after))) = Return params
    ∧ params !! Py.unquote_plus name = Some (Py.unquote_plus value).
Proof.
  intros Hall Hafter. eexists. split.
  - apply form_decode_pairs; [by destruct before | done].
  - change (foldl _ ∅ ?ps) with (store_params ∅ ps).
    unfold store_params at 1. rewrite foldl_app. simpl.
    change (foldl _ ?m after) with (store_params m after).
    rewrite store_params_other by done. apply lookup_insert_eq.
Qed.

Lemma form_decode_last_field_wins_witness :
  ∃ params,
    form_decode (Some (Str "guest=a&guest=b")) = Return params
    ∧ params !! Str "guest" = Some (Str "b").
Proof.
  apply (form_decode_last_field_wins [(Str "guest", Str "a")] [] (Str "guest") (Str "b")).
  - repeat (constructor; [repeat split; by_compute|]). constructor.
  - constructor.
Defined.

(** ** unquote_plus *)

Lemma replace_plus_percent (s : str) : 0x25 ∈ Py.replace_plus s ↔ 0x25 ∈ s.
Proof.
  unfold Py.replace_plus. rewrite list_elem_of_fmap. split.
  - intros (c & E & Hc). destruct (N.eqb_spec c 0x2B); [done | by subst].
  - intros H. exists 0x25. by split.
Qed.

Lemma replace_plus_id (s : str) : 0x2B ∉ s → Py.replace_plus s = s.
Proof.
  induction s as [|c s IH]; intros H; [done|].
  apply not_elem_of_cons in H as [Hc Hs]. unfold Py.replace_plus in *. simpl.
  destruct (N.eqb_spec c 0x2B); [congruence|]. f_equal. by apply IH.
Qed.

(** X5. On text without [%], [unquote_plus] only turns every [+] into a
    space: the length is kept, no [+] is left, and text without [+] is
    returned as it is. *)
Theorem unquote_plus_without_percent (s : str) :
  0x25 ∉ s →
  Py.unquote_plus s = (fun c => if c =? 0x2B then 0x20 else c) <$> s
  ∧ length (Py.unquote_plus s) = length s
  ∧ (0x2B ∉ Py.unquote_plus s)
  ∧ (0x2B ∉ s → Py.unquote_plus s = s).
Proof.
  intros H. assert (Py.unquote_plus s = Py.replace_plus s) as E.
  { unfold Py.unquote_plus, Py.unquote.
    rewrite bool_decide_eq_false_2; [done|]. by rewrite replace_plus_percent. }
  rewrite E. split; [done|]. split; [apply length_fmap|]. split.
  - unfold Py.replace_plus. rewrite list_elem_of_fmap. intros (c & Ec & _).
    destruct (N.eqb_spec c 0x2B); [done | congruence].
  - apply replace_plus_id.
Qed.

Lemma unquote_plus_without_percent_witness :
  Py.unquote_plus (Str "a+b c") = Str "a b c".
Proof.
  rewrite (proj1 (unquote_plus_without_percent (Str "a+b c") ltac:(by_compute))).
  reflexivity.
Defined.

(** ** Decimal numerals *)

Lemma digit_char_decimal (d : N) : d < 10 → Py.digit_char d = 0x30 + d.
Proof. intros H. unfold Py.digit_char. destruct (N.ltb_spec d 10); [done | lia]. Qed.

Lemma isdigit_decimal (d : N) : d < 10 → Py.isdigit (0x30 + d) = true.
Proof.
  intros H. unfold Py.isdigit. apply andb_true_iff. split; apply N.leb_le; lia.
Qed.

Lemma isspace_decimal (d : N) : d < 10 → Py.isspace (0x30 + d) = false.
Proof.
  intros H. unfold Py.isspace.
  repeat match goal with
  | |- context [?a <=? ?b] => destruct (N.leb_spec a b); try lia
  | |- context [?a =? ?b] => destruct (N.eqb_spec a b); try lia
  end; reflexivity.
Qed.

Lemma digits_value_decimal (ds : list N) (acc : Z) (after : bool) :
  Forall (fun d => d < 10) ds → ds ≠ [] →
  Py.digits_value acc after (Py.digit_char <$> ds)
  = Some (foldl (fun acc d => 10 * acc + Z.of_N d)%Z acc ds).
Proof.
  intros H. revert acc after. induction H as [|d ds Hd Hds IH]; intros acc after Hne; [done|].
  simpl. rewrite digit_char_decimal, isdigit_decimal by done.
  replace (48 + d - 48) with d by lia.
  destruct ds as [|d' ds]; [done|]. by apply IH.
Qed.

Lemma foldl_Z_of_N (ds : list N) (acc : N) :
  foldl (fun acc d => 10 * acc + Z.of_N d)%Z (Z.of_N acc) ds
  = Z.of_N (foldl (fun acc d => 10 * acc + d) acc ds).
Proof.
  revert acc. induction ds as [|d ds IH]; intros acc; [done|].
  simpl. rewrite <- IH. f_equal. lia.
Qed.

Lemma strip_clean (s : str) : clean s → clean (rev s) → Py.strip s = s.
Proof.
  intros H1 H2. unfold Py.strip, Py.rstrip.
  by rewrite (clean_lstrip s), (clean_lstrip (rev s)), rev_involutive.
Qed.

Lemma format_d_digits (n : N) :
  ∃ d ds, Py.to_digits 10 (N.to_nat (N.size n) + 1) n = d :: ds
          ∧ Forall (fun d => d < 10) (d :: ds)
          ∧ value_of_digits 10 (d :: ds) = n.
Proof.
  rewrite Nat.add_1_r.
  destruct (to_digits_spec 10 _ ltac:(lia) n (size_fuel n)) as (Hall & Hval & d & ds & E & _).
  exists d, ds. by rewrite E in *.
Qed.

Lemma clean_decimal (ds : list N) :
  Forall (fun d => d < 10) ds → clean (Py.digit_char <$> ds).
Proof.
  destruct 1 as [|d ds Hd _]; [done|]. simpl.
  rewrite digit_char_decimal by done. by apply isspace_decimal.
Qed.

Lemma int_unsigned (s : str) :
  clean s → clean (rev s) → head s ≠ Some 0x2D → head s ≠ Some 0x2B →
  Py.int s = Py.digits_value 0 false s.
Proof.
  intros H1 H2 Hm Hp. unfold Py.int. rewrite strip_clean by done.
  destruct s as [|c s]; [done|]. simpl in Hm, Hp.
  destruct c as [|p]; [done|].
  do 6 (destruct p as [p|p|]; try done).
Qed.

Lemma int_of_format_d (n : N) : Py.int (Py.format_d n) = Some (Z.of_N n).
Proof.
  unfold Py.format_d. destruct (format_d_digits n) as (d & ds & -> & Hall & Hval).
  pose proof (Forall_inv Hall) as Hd.
  rewrite int_unsigned.
  - rewrite digits_value_decimal by done.
    f_equal. rewrite <- Hval. exact (foldl_Z_of_N (d :: ds) 0).
  - by apply clean_decimal.
  - rewrite <- map_rev. apply clean_decimal. by apply Forall_rev.
  - simpl. rewrite digit_char_decimal by done. intros [= E]. lia.
  - simpl. rewrite digit_char_decimal by done. intros [= E]. lia.
Qed.

(** X6. The decimal numeral that the server writes for a length is read
    back by [int] as that length, and [strip] leaves it as it is: a
    [Content-Length] written by line 41 is understood by line 31. *)
Theorem int_format_d (n : N) :
  Py.int (Py.format_d n) = Some (Z.of_N n)
  ∧ Py.strip (Py.format_d n) = Py.format_d n.
Proof.
  split; [apply int_of_format_d|].
  unfold Py.format_d. destruct (format_d_digits n) as (d & ds & -> & Hall & _).
  apply strip_clean; [by apply clean_decimal|].
  rewrite <- map_rev. apply clean_decimal. by apply Forall_rev.
Qed.

(** ** The response *)

Lemma encode_app (a b : str) :
  Py.encode (a ++ b) = (x ← Py.encode a; y ← Py.encode b; Return (x ++ y)).
Proof.
  induction a as [|c a IH]; simpl.
  - by destruct (Py.encode b).
  - destruct (Py.encode_char c) as [bc|e]; [|done]. cbn [mbind outcome_bind].
    rewrite IH. destruct (Py.encode a) as [x|e]; [|done]. cbn [mbind outcome_bind].
    destruct (Py.encode b) as [y|e]; [|done]. cbn [mbind outcome_bind].
    by rewrite app_assoc.
Qed.

Lemma encode_ascii_app (a b : str) :
  is_ascii a → Py.encode (a ++ b) = (ascii_bytes a ++.) <$> Py.encode b.
Proof.
  intros H. rewrite encode_app, (encode_ascii a H). cbn [mbind outcome_bind].
  by destruct (Py.encode b).
Qed.

Lemma format_d_ascii (n : N) : is_ascii (Py.format_d n).
Proof.
  unfold Py.format_d. destruct (format_d_digits n) as (d & ds & -> & Hall & _).
  apply Forall_fmap. eapply Forall_impl; [exact Hall|].
  intros c Hc. simpl in Hc. apply digit_char_ascii. lia.
Qed.

Lemma ascii_bytes_to_N (bs : bytes) : ascii_bytes (Byte.to_N <$> bs) = bs.
Proof.
  induction bs as [|b bs IH]; [done|].
  rewrite fmap_cons. unfold ascii_bytes in *. rewrite fmap_cons, IH. f_equal.
  unfold Py.byte_of_N. by rewrite Byte.of_to_N.
Qed.

Lemma ascii_bytes_Str (s : string) : ascii_bytes (Str s) = Bytes s.
Proof. apply ascii_bytes_to_N. Qed.

Lemma send_response_encoded (status response_body : str) :
  is_ascii status →
  (∀ encoded,
     Py.encode response_body = Return encoded →
     send_response status response_body
     = Return (Bytes "HTTP/1.0 " ++ ascii_bytes status ++ CRLF
               ++ Bytes "Content-Length: "
               ++ ascii_bytes (Py.format_d (N.of_nat (length encoded))) ++ CRLF
               ++ CRLF ++ encoded))
  ∧ (∀ e, Py.encode response_body = Raise e →
          send_response status response_body = Raise e).
Proof.
  intros Hs. unfold send_response. split.
  - intros encoded H. rewrite H. cbn [mbind outcome_bind].
    rewrite <- !app_assoc.
    rewrite (encode_ascii_app (Str "HTTP/1.0 ")) by by_compute.
    rewrite (encode_ascii_app status) by done.
    rewrite (encode_ascii_app crlf) by (repeat constructor; lia).
    rewrite (encode_ascii_app (Str "Content-Length: ")) by by_compute.
    rewrite (encode_ascii_app (Py.format_d _)) by apply format_d_ascii.
    rewrite (encode_ascii_app crlf) by (repeat constructor; lia).
    rewrite (encode_ascii_app crlf) by (repeat constructor; lia).
    rewrite H. rewrite !ascii_bytes_Str. reflexivity.
  - by intros e ->.
Qed.

(** X7. For an ASCII status the response is [HTTP/1.0 status], the
    [Content-Length] of the encoded body in decimal, a blank line and the
    encoded body; when the body cannot be encoded the exception is that of
    the encoder. *)
Theorem send_response_bytes (status response_body : str) :
  is_ascii status →
  (∀ encoded,
     Py.encode response_body = Return encoded →
     send_response status response_body
     = Return (Bytes "HTTP/1.0 " ++ ascii_bytes status ++ CRLF
               ++ Bytes "Content-Length: "
               ++ ascii_bytes (Py.format_d (N.of_nat (length encoded))) ++ CRLF
               ++ CRLF ++ encoded))
  ∧ (∀ e, Py.encode response_body = Raise e →
          send_response status response_body = Raise e).
Proof. apply send_response_encoded. Qed.

Lemma send_response_bytes_witness :
  send_response (Str "200 OK") (Str "hi")
  = Return (Bytes "HTTP/1.0 " ++ ascii_bytes (Str "200 OK") ++ CRLF
            ++ Bytes "Content-Length: "
            ++ ascii_bytes (Py.format_d (N.of_nat (length (Bytes "hi")))) ++ CRLF
            ++ CRLF ++ Bytes "hi").
Proof.
  apply (send_response_bytes (Str "200 OK") (Str "hi")); [by_compute | reflexivity].
Defined.

(** ** What a parse consumes *)

Lemma read_headers_loop_layout (fuel : nat) (req : bytes) (hs hs' : gmap str str)
    (rest : bytes) :
  read_headers_loop fuel req hs = Some (Return (hs', rest)) →
  ∃ lines blank, req = lines ++ blank ++ rest ∧ Py.decode blank = Return crlf.
Proof.
  revert req hs. induction fuel as [|fuel IH]; intros req hs; [done|].
  rewrite read_headers_loop_S.
  destruct (Py.readline req) as [raw rest'] eqn:Hrl. apply readline_app in Hrl as ->.
  destruct (Py.decode raw) as [line|e] eqn:Hd; [|done].
  case_bool_decide as Hb.
  - intros [= <- <-]. exists [], raw. subst line. by split.
  - destruct (Py.splitn 0x3A 1 line) as [|header [|value [|? ?]]]; try done.
    intros (lines & blank & -> & Hblank)%IH.
    exists (raw ++ lines), blank. by rewrite <- app_assoc.
Qed.

Lemma read_body_layout (hs : gmap str str) (req : bytes) (b : option str) (rest : bytes) :
  read_body hs req = Return (b, rest) →
  ∃ data, req = data ++ rest
    ∧ match b with
      | None => data = [] ∧ hs !! Str "content-length" = None
      | Some text =>
          Py.decode data = Return text ∧ is_Some (hs !! Str "content-length")
      end.
Proof.
  unfold read_body, Py.read.
  destruct (hs !! Str "content-length") as [value|]; [|intros [= <- <-]; by exists []].
  destruct (Py.int value) as [n|]; [|done].
  destruct (n <? -1)%Z; [done|].
  destruct (n =? -1)%Z; cbn [mbind outcome_bind].
  - destruct (Py.decode req) as [text|e] eqn:Hd; [|done]. cbn [mbind outcome_bind].
    intros [= <- <-]. exists req. by rewrite app_nil_r.
  - destruct (Py.decode (take (Z.to_nat n) req)) as [text|e] eqn:Hd; [|done].
    cbn [mbind outcome_bind]. intros [= <- <-]. exists (take (Z.to_nat n) req).
    by rewrite take_drop.
Qed.

Lemma parse_request_Return (req : bytes) (r : request) (rest : bytes) :
  parse_request req = Return (r, rest) →
  ∃ raw after text after_headers,
    Py.readline req = (raw, after)
    ∧ Py.decode raw = Return text
    ∧ Py.splitn 0x20 2 text = [method r; url r; version r]
    ∧ method r ∈ [Str "GET"; Str "POST"]
    ∧ read_headers after ∅ = Return (headers r, after_headers)
    ∧ read_body (headers r) after_headers = Return (body r, rest).
Proof.
  unfold parse_request. destruct (Py.readline req) as [raw after].
  destruct (Py.decode raw) as [text|e] eqn:Hd; [|done]. cbn [mbind outcome_bind].
  destruct (Py.splitn 0x20 2 text) as [|m [|u [|v [|? ?]]]] eqn:Hs; try done.
  case_bool_decide; [|done]. unfold read_rest.
  destruct (read_headers after ∅) as [[hs after_headers]|e] eqn:Hh; [|done].
  cbn [mbind outcome_bind].
  destruct (read_body hs after_headers) as [[b rest']|e] eqn:Hb; [|done].
  cbn [mbind outcome_bind]. intros [= <- <-]. by exists raw, after, text, after_headers.
Qed.

(** X8. Whatever request is returned, the stream is a head, a line that
    decodes to CRLF, the bytes of the body and the bytes left unread, in
    that order: nothing after the body is consumed, and without a body the
    unread bytes start right after the blank line. *)
Theorem parse_request_layout (req : bytes) (r : request) (rest : bytes) :
  parse_request req = Return (r, rest) →
  ∃ head blank data,
    req = head ++ blank ++ data ++ rest
    ∧ Py.decode blank = Return crlf
    ∧ match body r with
      | None => data = []
      | Some text => Py.decode data = Return text
      end.
Proof.
  intros (raw & after & text & after_headers & Hrl & _ & _ & _ & Hh & Hb)%parse_request_Return.
  apply readline_app in Hrl as ->.
  pose proof (read_headers_total after ∅) as Ht. rewrite Hh in Ht.
  apply read_headers_loop_layout in Ht as (lines & blank & -> & Hblank).
  apply read_body_layout in Hb as (data & -> & Hdata).
  exists (raw ++ lines), blank, data. rewrite <- !app_assoc. split; [done|].
  split; [done|]. destruct (body r); by destruct Hdata.
Qed.

Lemma parse_request_layout_witness :
  ∃ head blank data,
    Bytes "POST /add HTTP/1.0" ++ CRLF ++ Bytes "Content-Length: 3" ++ CRLF ++ CRLF
      ++ Bytes "a=bGET /"
    = head ++ blank ++ data ++ Bytes "GET /"
    ∧ Py.decode blank = Return crlf
    ∧ Py.decode data = Return (Str "a=b").
Proof.
  apply (parse_request_layout
           (Bytes "POST /add HTTP/1.0" ++ CRLF ++ Bytes "Content-Length: 3" ++ CRLF
            ++ CRLF ++ Bytes "a=bGET /")
           (Request (Str "POST") (Str "/add") (Str "HTTP/1.0" ++ crlf)
              {[Str "content-length" := Str "3"]} (Some (Str "a=b")))
           (Bytes "GET /")).
  by vm_compute.
Defined.

(** X9. A request that is returned has a body exactly when its header
    map has the key [content-length]. *)
Theorem body_iff_content_length (req : bytes) (r : request) (rest : bytes) :
  parse_request req = Return (r, rest) →
  (body r = None ↔ headers r !! Str "content-length" = None)
  ∧ (is_Some (body r) ↔ is_Some (headers r !! Str "content-length")).
Proof.
  intros (_ & _ & _ & after_headers & _ & _ & _ & _ & _ & Hb)%parse_request_Return.
  apply read_body_layout in Hb as (data & _ & Hdata).
  destruct (body r) as [text|].
  - destruct Hdata as [_ [value Hv]]. rewrite Hv. split; [done|]. split; eauto.
  - destruct Hdata as [_ ->]. split; [done|]. split; by intros [? ?].
Qed.

Lemma body_iff_content_length_witness :
  is_Some (body (Request (Str "POST") (Str "/add") (Str "HTTP/1.0" ++ crlf)
                   {[Str "content-length" := Str "3"]} (Some (Str "a=b"))))
  ↔ is_Some (headers (Request (Str "POST") (Str "/add") (Str "HTTP/1.0" ++ crlf)
                        {[Str "content-length" := Str "3"]} (Some (Str "a=b")))
               !! Str "content-length").
Proof.
  apply (body_iff_content_length
           (Bytes "POST /add HTTP/1.0" ++ CRLF ++ Bytes "Content-Length: 3" ++ CRLF
            ++ CRLF ++ Bytes "a=bGET /")
           (Request (Str "POST") (Str "/add") (Str "HTTP/1.0" ++ crlf)
              {[Str "content-length" := Str "3"]} (Some (Str "a=b")))
           (Bytes "GET /")).
  by vm_compute.
Defined.

(** ** Lengths that are not a count *)



(** ** The accept loop *)

Lemma do_request_entries (m u : str) (hs : gmap str str) (b : option str)
    (ENTRIES : list str) :
  (do_request m u hs b ENTRIES).2 = ENTRIES
  ∨ ∃ guest, (do_request m u hs b ENTRIES).2 = ENTRIES ++ [guest].
Proof.
  unfold do_request, add_entry.
  destruct (bool_decide (m = Str "GET") && bool_decide (u = Str "/")); [by left|].
  destruct (bool_decide (m = Str "POST") && bool_decide (u = Str "/add")); [|by left].
  destruct (form_decode b) as [params|e]; [|by left].
  destruct (params !! Str "guest") as [guest|]; [right; by exists guest | by left].
Qed.

Lemma handle_connection_entries (conx : bytes) (ENTRIES : list str) :
  (handle_connection conx ENTRIES).2 = ENTRIES
  ∨ ∃ guest, (handle_connection conx ENTRIES).2 = ENTRIES ++ [guest].
Proof.
  unfold handle_connection.
  destruct (parse_request conx) as [[r rest]|e]; [|by left].
  pose proof (do_request_entries (method r) (url r) (headers r) (body r) ENTRIES) as H.
  by destruct (do_request _ _ _ _ _) as [[[status page]|e] E'].
Qed.

(** X11. Over any sequence of connections the accept loop only appends to
    the entry list, at most one entry per connection served; an exception
    is the last response, and the loop stops short of the sequence only on
    an exception. *)
Theorem serve_entries_grow (conxs : list bytes) (ENTRIES : list str) :
  ∃ added,
    (serve conxs ENTRIES).2 = ENTRIES ++ added
    ∧ (length added ≤ length (serve conxs ENTRIES).1 ≤ length conxs)%nat
    ∧ (∀ i e, (serve conxs ENTRIES).1 !! i = Some (Raise e) →
              S i = length (serve conxs ENTRIES).1)
    ∧ ((length (serve conxs ENTRIES).1 < length conxs)%nat →
       ∃ e, last (serve conxs ENTRIES).1 = Some (Raise e)).
Proof.
  revert ENTRIES. induction conxs as [|conx conxs IH]; intros ENTRIES.
  - exists []. simpl. rewrite app_nil_r. repeat split; [lia | lia | done | lia].
  - simpl. pose proof (handle_connection_entries conx ENTRIES) as Hh.
    destruct (handle_connection conx ENTRIES) as [[response|e] E'] eqn:Hc; simpl in Hh.
    + destruct (IH E') as (added & Ha & Hlen & Hraise & Hshort).
      destruct (serve conxs E') as [responses E''] eqn:Hs. simpl in *.
      assert (∃ first, E' = ENTRIES ++ first ∧ (length first ≤ 1)%nat) as (first & -> & Hf).
      { destruct Hh as [->|[guest ->]]; [exists [] | exists [guest]];
          rewrite ?app_nil_r; split; simpl; done || lia. }
      exists (first ++ added). rewrite app_assoc, length_app. split; [done|].
      split; [lia|]. split.
      * intros [|i] e; [done|]. simpl. intros H%Hraise. lia.
      * intros Hlt. destruct Hshort as [e He]; [lia|]. exists e.
        destruct responses; [done|]. done.
    + assert (∃ first, E' = ENTRIES ++ first ∧ (length first ≤ 1)%nat) as (first & -> & Hf).
      { destruct Hh as [->|[guest ->]]; [exists [] | exists [guest]];
          rewrite ?app_nil_r; split; simpl; done || lia. }
      exists first. simpl. split; [done|]. split; [lia|]. split.
      * intros [|i] e'; [done|]. done.
      * intros _. by exists e.
Qed.

(** ** do_GET *)

(** X13. Whatever the compressor returns, [do_GET] does not raise: after
    the writes already made it writes the frames of chunks of 1 to 16
    bytes that concatenate to the compressed payload, then the final
    chunk. *)
Theorem do_GET_chunks (gzip_compress : bytes → bytes) (wfile : list bytes) :
  ∃ cs,
    do_GET gzip_compress wfile
    = Return (wfile ++ concat (chunk_writes <$> cs) ++ [Bytes "0" ++ CRLF ++ CRLF])
    ∧ concat cs
      = gzip_compress (Bytes "Hello, this is a compressed and chunked response!")
    ∧ Forall (fun chunk => (1 ≤ length chunk ≤ 16)%nat) cs.
Proof.
  exists (chunks 16 (gzip_compress (ascii_bytes response_text))).
  rewrite do_GET_writes. unfold chunk_size. split; [apply send_chunked_writes|].
  split.
  - rewrite chunks_concat by lia. reflexivity.
  - apply Forall_forall. intros chunk [k Hk]%list_elem_of_lookup.
    by destruct (chunk_length 16 _ k chunk ltac:(lia) Hk) as [_ ?].
Qed.

(** ** Reading the chunks back *)

Lemma is_line_app (a : bytes) : LF ∉ a → is_line (a ++ [LF]) = true.
Proof.
  induction a as [|b a IH]; intros H; [done|].
  apply not_elem_of_cons in H as [Hb Ha].
  rewrite <- app_comm_cons. cbn [is_line]. rewrite decide_False by congruence.
  by apply IH.
Qed.

Lemma to_N_ascii_bytes (s : str) : is_ascii s → Byte.to_N <$> ascii_bytes s = s.
Proof.
  induction 1 as [|c s Hc _ IH]; [done|].
  unfold ascii_bytes in *. rewrite !fmap_cons, IH. f_equal.
  apply byte_of_N_to_N. lia.
Qed.

Lemma LF_not_in_ascii (s : str) : is_ascii s → 0x0A ∉ s → LF ∉ ascii_bytes s.
Proof.
  intros Ha Hn H. apply Hn. rewrite <- (to_N_ascii_bytes s Ha).
  apply list_elem_of_fmap. by exists LF.
Qed.

Lemma upper_hex_not_LF (s : str) :
  Forall (fun c => is_upper_hex c = true) s → 0x0A ∉ s.
Proof.
  intros H Hin. eapply Forall_forall in H; [|exact Hin]. by vm_compute in H.
Qed.

Lemma size_line_is_line (n : N) :
  is_line (ascii_bytes (Py.format_X n) ++ CRLF) = true.
Proof.
  destruct (format_X_spec n) as (Hhex & _ & _ & Ha).
  change CRLF with ([CR] ++ [LF]). rewrite app_assoc. apply is_line_app.
  rewrite not_elem_of_app. split.
  - apply LF_not_in_ascii; [done | by apply upper_hex_not_LF].
  - by_compute.
Qed.

Lemma size_of_size_line (n : N) :
  size_of_line (ascii_bytes (Py.format_X n) ++ CRLF) = Some n.
Proof.
  destruct (format_X_spec n) as (_ & Hval & _ & Ha).
  unfold size_of_line, CRLF. rewrite reverse_app.
  change (reverse [CR; LF]) with [LF; CR]. cbn [app].
  rewrite bool_decide_eq_true_2 by done.
  by rewrite reverse_involutive, to_N_ascii_bytes.
Qed.

Lemma dechunk_terminal (fuel : nat) :
  dechunk (S fuel) (Bytes "0" ++ CRLF ++ CRLF) = Some [].
Proof. reflexivity. Qed.

Lemma dechunk_chunk (fuel : nat) (chunk wire : bytes) :
  chunk ≠ [] →
  dechunk (S fuel) (concat (chunk_writes chunk) ++ wire)
  = (chunk ++.) <$> dechunk fuel wire.
Proof.
  intros Hne. rewrite chunk_writes_concat, <- !app_assoc.
  cbn [dechunk]. rewrite app_assoc, readline_line by apply size_line_is_line.
  rewrite size_of_size_line. cbn [mbind option_bind].
  assert (length chunk ≠ 0%nat) by (by destruct chunk).
  destruct (N.eqb_spec (N.of_nat (length chunk)) 0); [lia|].
  rewrite Nat2N.id.
  rewrite take_app_length, drop_app_length.
  rewrite bool_decide_eq_true_2 by done.
  by rewrite drop_app_add.
Qed.

Lemma dechunk_writes (cs : list bytes) (fuel : nat) :
  Forall (fun chunk => chunk ≠ []) cs → (length cs < fuel)%nat →
  dechunk fuel (concat (concat (chunk_writes <$> cs) ++ [Bytes "0" ++ CRLF ++ CRLF]))
  = Some (concat cs).
Proof.
  intros H. revert fuel. induction H as [|c cs Hc _ IH]; intros fuel Hlen.
  - destruct fuel; [simpl in Hlen; lia|]. reflexivity.
  - destruct fuel; [simpl in Hlen; lia|]. simpl in Hlen.
    rewrite fmap_cons. cbn [concat]. rewrite <- app_assoc, concat_app.
    rewrite dechunk_chunk by done. rewrite IH by lia. done.
Qed.

(** X14. A receiver of chunked transfer-encoding that reads the bytes
    written by the loop gets the compressed data back. *)
Theorem dechunk_send_chunked (S : nat) (data : bytes) (wfile : list bytes) :
  (1 ≤ S)%nat →
  ∃ writes,
    send_chunked S data wfile = Return (wfile ++ writes)
    ∧ dechunk (length data + 1) (concat writes) = Some data.
Proof.
  intros HS. eexists. split; [apply send_chunked_writes|].
  rewrite dechunk_writes.
  - by rewrite chunks_concat.
  - apply Forall_forall. intros chunk [k Hk]%list_elem_of_lookup.
    destruct (chunk_length S data k chunk HS Hk) as [_ Hlen].
    intros ->. simpl in Hlen. lia.
  - rewrite chunks_length. pose proof (ceil_div_bounds (length data) S HS). nia.
Qed.

Lemma dechunk_send_chunked_witness :
  ∃ writes,
    send_chunked 16 forty_bytes [] = Return ([] ++ writes)
    ∧ dechunk (length forty_bytes + 1) (concat writes) = Some forty_bytes.
Proof. apply (dechunk_send_chunked 16 forty_bytes []). lia. Defined.

(** ** A guest signs the book *)

Lemma decode_ascii_bytes (s : str) : is_ascii s → Py.decode (ascii_bytes s) = Return s.
Proof.
  intros H. rewrite <- (app_nil_r (ascii_bytes s)), decode_ascii_app by done.
  rewrite decode_nil. cbn [fmap outcome_fmap]. by rewrite app_nil_r.
Qed.

Lemma ascii_bytes_app (a b : str) : ascii_bytes (a ++ b) = ascii_bytes a ++ ascii_bytes b.
Proof. apply fmap_app. Qed.

Lemma isspace_decimal_char (ds : list N) :
  Forall (fun d => d < 10) ds →
  Forall (fun c => Py.isspace c = false ∧ c ≠ 0x0A ∧ c < 0x80) (Py.digit_char <$> ds).
Proof.
  intros H. apply Forall_fmap. eapply Forall_impl; [exact H|].
  intros d Hd. simpl in *. rewrite digit_char_decimal by done.
  split; [by apply isspace_decimal | lia].
Qed.

(** The value stored for the length header is the decimal numeral. *)
Lemma strip_length_value (n : N) :
  Py.strip (0x20 :: Py.format_d n ++ crlf) = Py.format_d n.
Proof.
  unfold Py.format_d. destruct (format_d_digits n) as (d & ds & -> & Hall & _).
  pose proof (clean_decimal _ Hall) as Hc.
  assert (clean (rev (Py.digit_char <$> d :: ds))) as Hr.
  { rewrite <- map_rev. apply clean_decimal. by apply Forall_rev. }
  set (s := Py.digit_char <$> d :: ds) in *.
  unfold Py.strip, Py.rstrip.
  change (Py.lstrip (32 :: s ++ crlf)) with (Py.lstrip (s ++ crlf)).
  rewrite (clean_lstrip (s ++ crlf)) by (by subst s).
  rewrite rev_app_distr.
  change (Py.lstrip (rev crlf ++ rev s)) with (Py.lstrip (rev s)).
  by rewrite clean_lstrip, rev_involutive.
Qed.

Lemma length_header_line (n : N) :
  header_line (Bytes "content-length: " ++ ascii_bytes (Py.format_d n) ++ CRLF)
    (Str "content-length") (0x20 :: Py.format_d n ++ crlf).
Proof.
  pose proof (format_d_ascii n) as Ha.
  assert (0x0A ∉ Py.format_d n) as Hn.
  { unfold Py.format_d. destruct (format_d_digits n) as (d & ds & -> & Hall & _).
    intros Hin. apply isspace_decimal_char in Hall.
    eapply Forall_forall in Hall; [|exact Hin]. by destruct Hall as (_ & ? & _). }
  split; [|split].
  - change CRLF with ([CR] ++ [LF]). rewrite !app_assoc. apply is_line_app.
    rewrite !not_elem_of_app. split; [split|]; [by_compute | by apply LF_not_in_ascii | by_compute].
  - change (Bytes "content-length: " ++ ascii_bytes (Py.format_d n) ++ CRLF)
      with (ascii_bytes (Str "content-length: ") ++ ascii_bytes (Py.format_d n)
            ++ ascii_bytes crlf).
    rewrite <- !ascii_bytes_app. rewrite decode_ascii_bytes; [done|].
    apply Forall_app. split; [by_compute|]. apply Forall_app. split; [done | by_compute].
  - by_compute.
Qed.

Lemma take_drop_ascii_bytes (s : str) (trailing : bytes) :
  take (length s) (ascii_bytes s ++ trailing) = ascii_bytes s
  ∧ drop (length s) (ascii_bytes s ++ trailing) = trailing.
Proof.
  assert (length s = length (ascii_bytes s)) as -> by (symmetry; apply length_fmap).
  by rewrite take_app_length, drop_app_length.
Qed.

Lemma parse_post_guest (guest : str) (trailing : bytes) :
  is_ascii guest →
  parse_request (post_guest guest ++ trailing)
  = Return (Request (Str "POST") (Str "/add") (Str "HTTP/1.0" ++ crlf)
              {[Str "content-length"
                := Py.format_d (N.of_nat (length (Str "guest=" ++ guest)))]}
              (Some (Str "guest=" ++ guest)), trailing).
Proof.
  intros Ha. unfold post_guest.
  set (n := N.of_nat (length (Str "guest=" ++ guest))).
  set (raw := Bytes "content-length: " ++ ascii_bytes (Py.format_d n) ++ CRLF).
  replace ((Bytes "POST /add HTTP/1.0" ++ CRLF ++ Bytes "content-length: "
            ++ ascii_bytes (Py.format_d n) ++ CRLF ++ CRLF
            ++ ascii_bytes (Str "guest=" ++ guest)) ++ trailing)
    with ((Bytes "POST /add HTTP/1.0" ++ CRLF)
          ++ concat [raw] ++ CRLF ++ (ascii_bytes (Str "guest=" ++ guest) ++ trailing)).
  2:{ subst raw. cbn [concat]. rewrite app_nil_r. by rewrite <- !app_assoc. }
  rewrite parse_request_line by reflexivity.
  change (Py.decode (Bytes "POST /add HTTP/1.0" ++ CRLF))
    with (Return (Str "POST /add HTTP/1.0" ++ crlf) : outcome str).
  cbn [mbind outcome_bind].
  change (Py.splitn 32 2 (Str "POST /add HTTP/1.0" ++ crlf))
    with [Str "POST"; Str "/add"; Str "HTTP/1.0" ++ crlf].
  cbv beta iota. rewrite bool_decide_eq_true_2 by by_compute.
  rewrite (read_rest_lines _ _ _ [raw]
             [(Str "content-length", 0x20 :: Py.format_d n ++ crlf)]).
  2:{ constructor; [apply length_header_line | constructor]. }
  unfold store_headers. cbn [foldl fst snd]. rewrite strip_length_value.
  change (Py.casefold (Str "content-length")) with (Str "content-length").
  change (<[Str "content-length" := Py.format_d n]> (∅ : gmap str str))
    with ({[Str "content-length" := Py.format_d n]} : gmap str str).
  rewrite (read_body_declared _ _ (Py.format_d n) (length (Str "guest=" ++ guest))).
  - destruct (take_drop_ascii_bytes (Str "guest=" ++ guest) trailing) as [-> ->].
    rewrite decode_ascii_bytes; [done|]. apply Forall_app. split; [by_compute | done].
  - apply lookup_singleton_eq.
  - rewrite int_of_format_d. subst n. f_equal; lia.
Qed.

Lemma form_decode_guest (guest : str) :
  0x26 ∉ guest →
  form_decode (Some (Str "guest=" ++ guest))
  = Return {[Str "guest" := Py.unquote_plus guest]}.
Proof.
  intros H.
  change (Str "guest=" ++ guest) with (form_body [(Str "guest", guest)]).
  rewrite form_decode_pairs; [done | done |].
  constructor; [|constructor]. repeat split; [by_compute | by_compute | done].
Qed.

Lemma handle_post_guest (guest : str) (trailing : bytes) (ENTRIES : list str) :
  is_ascii guest → 0x26 ∉ guest →
  handle_connection (post_guest guest ++ trailing) ENTRIES
  = (send_response (Str "200 OK")
       (show_comments (ENTRIES ++ [Py.unquote_plus guest])),
     ENTRIES ++ [Py.unquote_plus guest]).
Proof.
  intros Ha Hamp. unfold handle_connection. rewrite parse_post_guest by done.
  cbn [method url headers body]. unfold do_request.
  rewrite (bool_decide_eq_false_2 (Str "POST" = Str "GET")) by by_compute.
  rewrite (bool_decide_eq_true_2 (Str "POST" = Str "POST")) by done.
  rewrite (bool_decide_eq_true_2 (Str "/add" = Str "/add")) by done.
  cbn [andb]. rewrite form_decode_guest by done.
  unfold add_entry. by rewrite lookup_singleton_eq.
Qed.

(** X12. A POST to [/add] whose body is [guest=] followed by ASCII text
    without [&], with its length declared, appends the unquoted text to
    the entry list and answers with the page of the new list; bytes after
    the body play no part. *)
Theorem post_guest_appends (guest : str) (trailing : bytes) (ENTRIES : list str) :
  is_ascii guest → 0x26 ∉ guest →
  handle_connection (post_guest guest ++ trailing) ENTRIES
  = (send_response (Str "200 OK")
       (show_comments (ENTRIES ++ [Py.unquote_plus guest])),
     ENTRIES ++ [Py.unquote_plus guest]).
Proof. apply handle_post_guest. Qed.

Lemma post_guest_appends_witness :
  handle_connection (post_guest (Str "Hello+World%21") ++ Bytes "ignored") ENTRIES_initial
  = (send_response (Str "200 OK")
       (show_comments (ENTRIES_initial ++ [Py.unquote_plus (Str "Hello+World%21")])),
     ENTRIES_initial ++ [Py.unquote_plus (Str "Hello+World%21")]).
Proof.
  apply (post_guest_appends (Str "Hello+World%21") (Bytes "ignored") ENTRIES_initial);
    by_compute.
Defined.

(** ** Header sections that do not end well *)

Lemma read_headers_end_of_stream (hs : gmap str str) :
  read_headers [] hs = Raise MalformedHeader.
Proof. by rewrite read_headers_unfold. Qed.

Lemma read_headers_no_colon (raw tail : bytes) (line : str) (hs : gmap str str) :
  is_line raw = true → Py.decode raw = Return line → line ≠ crlf → 0x3A ∉ line →
  read_headers (raw ++ tail) hs = Raise MalformedHeader.
Proof.
  intros Hl Hd Hne Hc. rewrite read_headers_unfold, readline_line by done.
  unfold header_step. cbn [fst snd]. rewrite Hd, bool_decide_eq_false_2 by done.
  cbn [Py.splitn]. apply cut_None in Hc. by rewrite Hc.
Qed.

(** X16. After any well-formed header lines, the end of the stream before
    the blank line raises [MalformedHeader], and so does a line that has no
    colon and is not the blank line. *)
Theorem malformed_header_section
    (raws : list bytes) (fields : list (str * str)) (hs : gmap str str) :
  Forall2 (fun raw f => header_line raw f.1 f.2) raws fields →
  read_headers (concat raws) hs = Raise MalformedHeader
  ∧ ∀ raw line tail,
      is_line raw = true → Py.decode raw = Return line → line ≠ crlf → 0x3A ∉ line →
      read_headers (concat raws ++ raw ++ tail) hs = Raise MalformedHeader.
Proof.
  intros H. split.
  - rewrite <- (app_nil_r (concat raws)), (read_headers_lines _ _ _ _ H).
    apply read_headers_end_of_stream.
  - intros raw line tail Hl Hd Hne Hc. rewrite (read_headers_lines _ _ _ _ H).
    by eapply read_headers_no_colon.
Qed.

Lemma malformed_header_section_witness :
  read_headers (Bytes "Host: x" ++ CRLF) ∅ = Raise MalformedHeader
  ∧ read_headers (Bytes "Host: x" ++ CRLF ++ Bytes "oops" ++ CRLF ++ CRLF) ∅
    = Raise MalformedHeader.
Proof.
  pose proof (malformed_header_section [Bytes "Host: x" ++ CRLF]
                [(Str "Host", Str " x" ++ crlf)] ∅) as [H1 H2].
  - constructor; [|constructor]. split; [reflexivity | split; [reflexivity | by_compute]].
  - split; [exact H1|].
    apply (H2 (Bytes "oops" ++ CRLF) (Str "oops" ++ crlf) CRLF);
      [reflexivity | reflexivity | by_compute | by_compute].
Defined.

(** ** A guest signs the book, the next visitor reads it *)

Lemma handle_get_root (ENTRIES : list str) :
  handle_connection (Bytes "GET / HTTP/1.0" ++ CRLF ++ CRLF) ENTRIES
  = (send_response (Str "200 OK") (show_comments ENTRIES), ENTRIES).
Proof.
  unfold handle_connection.
  change (parse_request (Bytes "GET / HTTP/1.0" ++ CRLF ++ CRLF))
    with (Return (Request (Str "GET") (Str "/") (Str "HTTP/1.0" ++ crlf) ∅ None,
                  ([] : bytes))).
  reflexivity.
Qed.

(** X15. A guest signs the book and the next visitor asks for [/]: both
    are answered with the page that lists the new entry last, with the
    length of its encoding declared, and the entry is in the list. *)
Theorem post_then_get (guest : str) (ENTRIES : list str) (page : bytes) :
  is_ascii guest → 0x26 ∉ guest →
  Py.encode (show_comments (ENTRIES ++ [Py.unquote_plus guest])) = Return page →
  serve [post_guest guest; Bytes "GET / HTTP/1.0" ++ CRLF ++ CRLF] ENTRIES
  = ([send_response (Str "200 OK") (show_comments (ENTRIES ++ [Py.unquote_plus guest]));
      send_response (Str "200 OK") (show_comments (ENTRIES ++ [Py.unquote_plus guest]))],
     ENTRIES ++ [Py.unquote_plus guest])
  ∧ send_response (Str "200 OK") (show_comments (ENTRIES ++ [Py.unquote_plus guest]))
    = Return (Bytes "HTTP/1.0 200 OK" ++ CRLF ++ Bytes "Content-Length: "
              ++ ascii_bytes (Py.format_d (N.of_nat (length page))) ++ CRLF
              ++ CRLF ++ page).
Proof.
  intros Ha Hamp Hpage.
  assert (send_response (Str "200 OK")
            (show_comments (ENTRIES ++ [Py.unquote_plus guest]))
          = Return (Bytes "HTTP/1.0 200 OK" ++ CRLF ++ Bytes "Content-Length: "
                    ++ ascii_bytes (Py.format_d (N.of_nat (length page))) ++ CRLF
                    ++ CRLF ++ page)) as Hr.
  { destruct (send_response_encoded (Str "200 OK")
                (show_comments (ENTRIES ++ [Py.unquote_plus guest]))) as [H _];
      [by_compute|]. by rewrite (H page Hpage). }
  split; [|done]. cbn [serve].
  rewrite <- (app_nil_r (post_guest guest)), handle_post_guest by done.
  rewrite Hr, handle_get_root, Hr. reflexivity.
Qed.

Lemma post_then_get_witness :
  (serve [post_guest (Str "hello"); Bytes "GET / HTTP/1.0" ++ CRLF ++ CRLF]
     ENTRIES_initial).2
  = ENTRIES_initial ++ [Py.unquote_plus (Str "hello")].
Proof.
  rewrite (proj1 (post_then_get (Str "hello") ENTRIES_initial
                    (ascii_bytes (show_comments
                                    (ENTRIES_initial ++ [Py.unquote_plus (Str "hello")])))
                    ltac:(by_compute) ltac:(by_compute) ltac:(by vm_compute))).
  reflexivity.
Defined.

(** ** UTF-8: what is encoded decodes back *)

Ltac compare_N :=
  repeat match goal with
  | |- context [?a <? ?b] => destruct (N.ltb_spec a b); try lia
  | |- context [?a <=? ?b] => destruct (N.leb_spec a b); try lia
  | |- context [?a =? ?b] => destruct (N.eqb_spec a b); try lia
  end.

Lemma scan_ascii (c : N) (bs : bytes) :
  c < 0x80 →
  Py.utf8_scan Py.Start (Py.byte_of_N c :: bs) = Some c :: Py.utf8_scan Py.Start bs.
Proof.
  intros H. cbn [Py.utf8_scan]. rewrite byte_of_N_to_N by lia. cbv zeta.
  by destruct (N.ltb_spec c 128); [|lia].
Qed.

Lemma scan_lead (x : N) (st : Py.utf8_state) (bs : bytes) :
  0x80 ≤ x < 0x100 → Py.utf8_lead x = Some st →
  Py.utf8_scan Py.Start (Py.byte_of_N x :: bs) = Py.utf8_scan st bs.
Proof.
  intros H Hl. cbn [Py.utf8_scan]. rewrite byte_of_N_to_N by lia. cbv zeta.
  destruct (N.ltb_spec x 128); [lia|]. by rewrite Hl.
Qed.

Lemma scan_cont (acc : N) (need : nat) (lo hi x : N) (bs : bytes) :
  lo ≤ x ≤ hi → x < 0x100 →
  Py.utf8_scan (Py.Cont acc need lo hi) (Py.byte_of_N x :: bs)
  = match need with
    | O => Some (acc * 64 + (x - 0x80)) :: Py.utf8_scan Py.Start bs
    | S n => Py.utf8_scan (Py.Cont (acc * 64 + (x - 0x80)) n 0x80 0xBF) bs
    end.
Proof.
  intros H Hx. cbn [Py.utf8_scan]. rewrite byte_of_N_to_N by lia. cbv zeta.
  destruct (N.leb_spec lo x); [|lia]. destruct (N.leb_spec x hi); [|lia]. done.
Qed.

Lemma utf8_lead_cases (x : N) :
  (0xC2 ≤ x < 0xE0 → Py.utf8_lead x = Some (Py.Cont (x - 0xC0) 0 0x80 0xBF))
  ∧ (x = 0xE0 → Py.utf8_lead x = Some (Py.Cont 0 1 0xA0 0xBF))
  ∧ (x = 0xED → Py.utf8_lead x = Some (Py.Cont 0xD 1 0x80 0x9F))
  ∧ (0xE0 < x < 0xF0 → x ≠ 0xED → Py.utf8_lead x = Some (Py.Cont (x - 0xE0) 1 0x80 0xBF))
  ∧ (x = 0xF0 → Py.utf8_lead x = Some (Py.Cont 0 2 0x90 0xBF))
  ∧ (0xF0 < x < 0xF4 → Py.utf8_lead x = Some (Py.Cont (x - 0xF0) 2 0x80 0xBF))
  ∧ (x = 0xF4 → Py.utf8_lead x = Some (Py.Cont 4 2 0x80 0x8F)).
Proof.
  unfold Py.utf8_lead. repeat split; intros; subst; try reflexivity; compare_N; done.
Qed.

Lemma scan_encode_char (c : N) (bc bs : bytes) :
  Py.encode_char c = Return bc →
  Py.utf8_scan Py.Start (bc ++ bs) = Some c :: Py.utf8_scan Py.Start bs.
Proof.
  unfold Py.encode_char.
  pose proof (N.div_mod c 64 ltac:(lia)) as E1.
  pose proof (N.mod_lt c 64 ltac:(lia)) as L1.
  pose proof (N.div_mod (c / 64) 64 ltac:(lia)) as E2.
  pose proof (N.mod_lt (c / 64) 64 ltac:(lia)) as L2.
  pose proof (N.div_mod (c / 64 / 64) 64 ltac:(lia)) as E3.
  pose proof (N.mod_lt (c / 64 / 64) 64 ltac:(lia)) as L3.
  replace (c / 4096) with (c / 64 / 64) by (rewrite N.Div0.div_div; done).
  replace (c / 262144) with (c / 64 / 64 / 64) by (rewrite !N.Div0.div_div; done).
  set (q1 := c / 64) in *. set (r1 := c mod 64) in *.
  set (q2 := q1 / 64) in *. set (r2 := q1 mod 64) in *.
  set (q3 := q2 / 64) in *. set (r3 := q2 mod 64) in *.
  destruct (N.ltb_spec c 0x80).
  { intros [= <-]. by apply scan_ascii. }
  destruct (N.ltb_spec c 0x800).
  { intros [= <-]. cbn [app].
    rewrite (scan_lead _ (Py.Cont (0xC0 + q1 - 0xC0) 0 0x80 0xBF)) by
      (first [lia | apply utf8_lead_cases; lia]).
    rewrite scan_cont by lia. do 2 f_equal. lia. }
  destruct (N.ltb_spec c 0x10000).
  { destruct (N.leb_spec 0xD800 c), (N.ltb_spec c 0xE000); cbn [andb]; try done;
      intros [= <-]; cbn [app].
    all: destruct (N.eq_dec q2 0) as [Hq|Hq];
      [ rewrite (scan_lead _ (Py.Cont 0 1 0xA0 0xBF)) by
          (first [lia | apply utf8_lead_cases; lia])
      | destruct (N.eq_dec q2 13) as [Hq'|Hq'];
        [ rewrite (scan_lead _ (Py.Cont 0xD 1 0x80 0x9F)) by
            (first [lia | apply utf8_lead_cases; lia])
        | rewrite (scan_lead _ (Py.Cont (0xE0 + q2 - 0xE0) 1 0x80 0xBF)) by
            (first [lia | apply utf8_lead_cases; lia]) ] ].
    all: rewrite scan_cont by lia; rewrite scan_cont by lia; do 2 f_equal; lia. }
  destruct (N.ltb_spec c 0x110000); [|done].
  intros [= <-]. cbn [app].
  destruct (N.eq_dec q3 0) as [Hq|Hq];
    [ rewrite (scan_lead _ (Py.Cont 0 2 0x90 0xBF)) by
        (first [lia | apply utf8_lead_cases; lia])
    | destruct (N.eq_dec q3 4) as [Hq'|Hq'];
      [ rewrite (scan_lead _ (Py.Cont 4 2 0x80 0x8F)) by
          (first [lia | apply utf8_lead_cases; lia])
      | rewrite (scan_lead _ (Py.Cont (0xF0 + q3 - 0xF0) 2 0x80 0xBF)) by
          (first [lia | apply utf8_lead_cases; lia]) ] ].
  all: rewrite scan_cont by lia; rewrite scan_cont by lia; rewrite scan_cont by lia;
    do 2 f_equal; lia.
Qed.

Lemma scan_encode (s : str) (bs : bytes) :
  Py.encode s = Return bs → Py.utf8_scan Py.Start bs = Some <$> s.
Proof.
  revert bs. induction s as [|c s IH]; intros bs; simpl.
  - by intros [= <-].
  - destruct (Py.encode_char c) as [bc|e] eqn:Hc; [|done]. cbn [mbind outcome_bind].
    destruct (Py.encode s) as [bs'|e]; [|done]. cbn [mbind outcome_bind].
    intros [= <-]. rewrite (scan_encode_char _ _ _ Hc). f_equal. by apply IH.
Qed.

Lemma decode_of_encode (s : str) (bs : bytes) :
  Py.encode s = Return bs → Py.decode bs = Return s.
Proof.
  intros H. unfold Py.decode. rewrite (scan_encode _ _ H).
  rewrite <- (app_nil_r (Some <$> s)), mapM_id_app_Some. simpl. by rewrite app_nil_r.
Qed.

(** X17. What [encode] produces, [decode] reads back as the same text,
    in strict mode and in replace mode alike. *)
Theorem decode_encode (s : str) (bs : bytes) :
  Py.encode s = Return bs →
  Py.decode bs = Return s ∧ Py.decode_replace bs = s.
Proof.
  intros H. split; [by apply decode_of_encode|].
  unfold Py.decode_replace. rewrite (scan_encode _ _ H), <- list_fmap_compose.
  by rewrite list_fmap_id.
Qed.

Lemma decode_encode_witness :
  Py.decode [xf0; x9f; x98; x80; x41; xc3; xa9; xe2; x82; xac]
  = Return [0x1F600; 65; 233; 0x20AC]
  ∧ Py.decode_replace [xf0; x9f; x98; x80; x41; xc3; xa9; xe2; x82; xac]
    = [0x1F600; 65; 233; 0x20AC].
Proof. apply (decode_encode [0x1F600; 65; 233; 0x20AC]). reflexivity. Defined.

(** ** Encoding never fails on what the server reads *)

Lemma encodable_spec (c : N) :
  encodable c = true ↔ c < 0x110000 ∧ ¬ (0xD800 ≤ c < 0xE000).
Proof. unfold encodable. compare_N; simpl; split; (done || lia || intros; lia). Qed.

Lemma encode_char_encodable (c : N) :
  encodable c = true → ∃ bc, Py.encode_char c = Return bc.
Proof.
  intros [H1 H2]%encodable_spec. unfold Py.encode_char. compare_N; simpl; eauto.
Qed.

Lemma encode_encodable (s : str) : encodable_text s → ∃ bs, Py.encode s = Return bs.
Proof.
  induction 1 as [|c s Hc _ [bs IH]]; [by eexists|].
  destruct (encode_char_encodable c Hc) as [bc Hbc]. simpl. rewrite Hbc, IH.
  by eexists.
Qed.

Lemma utf8_lead_good (x : N) (st : Py.utf8_state) :
  x < 0x100 → Py.utf8_lead x = Some st → good_state st.
Proof.
  intros Hx. unfold Py.utf8_lead.
  compare_N; intros [= <-]; simpl; intros; apply encodable_spec; lia.
Qed.

Lemma utf8_scan_good (st : Py.utf8_state) (bs : bytes) :
  good_state st →
  Forall (fun o => ∀ c, o = Some c → encodable c = true) (Py.utf8_scan st bs).
Proof.
  revert st. induction bs as [|b bs IH]; intros st Hst.
  - destruct st; simpl; repeat constructor; done.
  - assert (Byte.to_N b < 0x100) as Hb.
    { pose proof (Byte.to_of_N_option_map (Byte.to_N b)) as E.
      rewrite Byte.of_to_N in E. simpl in E.
      destruct (N.leb_spec (Byte.to_N b) 255); [lia | done]. }
    assert (Forall (fun o => ∀ c, o = Some c → encodable c = true)
              (if Byte.to_N b <? 0x80 then Some (Byte.to_N b) :: Py.utf8_scan Py.Start bs
               else match Py.utf8_lead (Byte.to_N b) with
                    | Some st' => Py.utf8_scan st' bs
                    | None => None :: Py.utf8_scan Py.Start bs
                    end)) as Hstart.
    { destruct (N.ltb_spec (Byte.to_N b) 0x80).
      - constructor; [|by apply IH]. intros c [= <-]. apply encodable_spec. lia.
      - destruct (Py.utf8_lead (Byte.to_N b)) as [st'|] eqn:Hl.
        + apply IH. by eapply utf8_lead_good.
        + constructor; [done | by apply IH]. }
    destruct st as [|acc need lo hi]; cbn [Py.utf8_scan]; cbv zeta; [done|].
    destruct (N.leb_spec lo (Byte.to_N b)), (N.leb_spec (Byte.to_N b) hi); cbn [andb];
      try (constructor; [done | exact Hstart]).
    destruct need as [|n]; simpl in Hst.
    + constructor; [|by apply IH]. intros c [= <-]. apply Hst. lia.
    + apply IH. simpl. apply Hst. lia.
Qed.

Lemma decode_encodable (bs : bytes) (s : str) :
  Py.decode bs = Return s → encodable_text s.
Proof.
  unfold Py.decode. pose proof (utf8_scan_good Py.Start bs I) as H.
  destruct (mapM id (Py.utf8_scan Py.Start bs)) as [s'|] eqn:E; [|done].
  intros [= <-]. apply mapM_Some in E.
  induction E as [|o c os s' Ho _ IH]; [constructor|].
  apply Forall_cons in H as [Hc Hos]. constructor; [by apply Hc | by apply IH].
Qed.

Lemma decode_replace_encodable (bs : bytes) : encodable_text (Py.decode_replace bs).
Proof.
  unfold Py.decode_replace. apply Forall_fmap.
  eapply Forall_impl; [apply (utf8_scan_good Py.Start bs I)|].
  intros [c|] H; simpl; [by apply H | done].
Qed.

Lemma parse_request_errors (req : bytes) (e : error) :
  parse_request req = Raise e →
  e = UnicodeDecodeError ∨ e = MalformedRequestLine ∨ e = UnsupportedMethod
  ∨ e = MalformedHeader ∨ e = InvalidContentLength ∨ e = InvalidReadLength.
Proof.
  unfold parse_request. destruct (Py.readline req) as [raw after].
  destruct (Py.decode raw) as [text|e'] eqn:Hd.
  2:{ intros [= <-]. left. by eapply decode_Raise. }
  cbn [mbind outcome_bind].
  destruct (Py.splitn 0x20 2 text) as [|m [|u [|v [|? ?]]]];
    try (intros [= <-]; tauto).
  case_bool_decide; [|intros [= <-]; tauto]. unfold read_rest.
  destruct (read_headers after ∅) as [[hs after_headers]|e'] eqn:Hh.
  - cbn [mbind outcome_bind].
    destruct (read_body hs after_headers) as [[b rest]|e'] eqn:Hb; [done|].
    intros [= <-]. apply read_body_errors in Hb. tauto.
  - intros [= <-]. pose proof (read_headers_total after ∅) as Ht. rewrite Hh in Ht.
    apply read_headers_loop_errors in Ht. tauto.
Qed.


Lemma encodable_ascii (s : str) : is_ascii s → encodable_text s.
Proof.
  intros H. eapply Forall_impl; [exact H|]. intros c Hc. simpl in Hc.
  apply encodable_spec. lia.
Qed.

Lemma cut_encodable (sep : N) (s a b : str) :
  Py.cut sep s = Some (a, b) → encodable_text s → encodable_text a ∧ encodable_text b.
Proof.
  intros [-> _]%cut_Some [Ha Hb]%Forall_app. split; [done|].
  by apply Forall_cons in Hb as [_ ?].
Qed.

Lemma split_encodable (sep : N) (s : str) :
  encodable_text s → Forall encodable_text (Py.split sep s).
Proof.
  induction 1 as [|c s Hc Hs IH]; simpl; [by repeat constructor|].
  destruct (c =? sep); [constructor; [constructor | done]|].
  destruct (Py.split sep s) as [|f fs]; [by repeat constructor|].
  apply Forall_cons in IH as [Hf Hfs]. constructor; [by constructor | done].
Qed.

Lemma unquoted_parts_encodable (run s : str) :
  encodable_text s → encodable_text (Py.unquoted_parts run s).
Proof.
  intros H. revert run. induction H as [|c s Hc _ IH]; intros run; simpl.
  - apply decode_replace_encodable.
  - destruct (c <? 0x80); [apply IH|].
    apply Forall_app. split; [apply decode_replace_encodable|].
    constructor; [done | apply IH].
Qed.

Lemma unquote_plus_encodable (s : str) :
  encodable_text s → encodable_text (Py.unquote_plus s).
Proof.
  intros H. assert (encodable_text (Py.replace_plus s)) as H'.
  { unfold Py.replace_plus. apply Forall_fmap. eapply Forall_impl; [exact H|].
    intros c Hc. simpl. by destruct (c =? 0x2B). }
  unfold Py.unquote_plus, Py.unquote. case_bool_decide; [|done].
  by apply unquoted_parts_encodable.
Qed.

Lemma store_params_encodable (pairs : list (str * str)) (params : gmap str str) :
  Forall (fun p => encodable_text p.2) pairs →
  (∀ key value, params !! key = Some value → encodable_text value) →
  ∀ key value, store_params params pairs !! key = Some value → encodable_text value.
Proof.
  intros H. revert params. induction H as [|p pairs Hp _ IH]; intros params Hm; [done|].
  simpl. apply IH. intros key value. rewrite lookup_insert. case_decide.
  - intros [= <-]. by apply unquote_plus_encodable.
  - apply Hm.
Qed.

Lemma form_decode_encodable (text : str) (params : gmap str str) :
  encodable_text text → form_decode (Some text) = Return params →
  ∀ key value, params !! key = Some value → encodable_text value.
Proof.
  intros Ht.
  change (form_decode (Some text)) with (Py.for_in (Py.split 0x26 text) store_field ∅).
  destruct (for_in_store_field (Py.split 0x26 text) ∅) as [[_ ->]|(pairs & Hp & ->)];
    [done|].
  intros [= <-]. apply store_params_encodable; [|intros key' value'; by rewrite lookup_empty].
  pose proof (split_encodable 0x26 text Ht) as Hf.
  induction Hp as [|f p fs ps [-> _] _ IH]; [constructor|].
  apply Forall_cons in Hf as [Hf Hfs]. constructor; [|by apply IH].
  apply Forall_app in Hf as [_ Hf]. by apply Forall_cons in Hf as [_ ?].
Qed.

Lemma foldl_app_encodable (f : str → str) (ENTRIES : list str) (out : str) :
  (∀ e, encodable_text e → encodable_text (f e)) →
  encodable_text out → Forall encodable_text ENTRIES →
  encodable_text (foldl (fun out entry => out ++ f entry) out ENTRIES).
Proof.
  intros Hf Hout H. revert out Hout. induction H as [|e es He _ IH]; intros out Hout; [done|].
  simpl. apply IH. apply Forall_app. split; [done | by apply Hf].
Qed.

Lemma show_comments_encodable (ENTRIES : list str) :
  Forall encodable_text ENTRIES → encodable_text (show_comments ENTRIES).
Proof.
  intros H. unfold show_comments.
  repeat (apply Forall_app; split); try (apply encodable_ascii; by_compute).
  apply (foldl_app_encodable (fun entry => Str "<p>" ++ entry ++ Str "</p>")); [| |done].
  - intros e He. repeat (apply Forall_app; split); try done; apply encodable_ascii; by_compute.
  - apply encodable_ascii. by_compute.
Qed.

Lemma not_found_encodable (u m : str) :
  encodable_text u → encodable_text m → encodable_text (not_found u m).
Proof.
  intros Hu Hm. unfold not_found.
  repeat (apply Forall_app; split); try done; apply encodable_ascii; by_compute.
Qed.

Lemma send_response_encodable (status response_body : str) :
  is_ascii status → encodable_text response_body →
  ∃ sent, send_response status response_body = Return sent.
Proof.
  intros Hs [encoded He]%encode_encodable.
  destruct (send_response_encoded status response_body Hs) as [H _].
  rewrite (H encoded He). by eexists.
Qed.

Lemma do_request_encodable (m u : str) (hs : gmap str str) (b : option str)
    (ENTRIES : list str) :
  encodable_text m → encodable_text u →
  (∀ text, b = Some text → encodable_text text) →
  Forall encodable_text ENTRIES →
  Forall encodable_text (do_request m u hs b ENTRIES).2
  ∧ ∀ status page,
      (do_request m u hs b ENTRIES).1 = Return (status, page) →
      is_ascii status ∧ encodable_text page.
Proof.
  intros Hm Hu Hb HE. unfold do_request.
  destruct (bool_decide (m = Str "GET") && bool_decide (u = Str "/")).
  { split; [done|]. intros status page [= <- <-]. split; [by_compute|].
    by apply show_comments_encodable. }
  destruct (bool_decide (m = Str "POST") && bool_decide (u = Str "/add")).
  - destruct (form_decode b) as [params|e] eqn:Hf; [|done].
    assert (Forall encodable_text (add_entry params ENTRIES).2) as HE'.
    { unfold add_entry. destruct (params !! Str "guest") as [guest|] eqn:Hg; [|done].
      simpl. apply Forall_app. split; [done|]. constructor; [|constructor].
      destruct b as [text|]; [|done].
      by eapply (form_decode_encodable text params (Hb text eq_refl) Hf). }
    destruct (add_entry params ENTRIES) as [page' E'] eqn:Ha. split; [done|].
    intros status page [= <- <-]. split; [by_compute|].
    unfold add_entry in Ha. injection Ha as <- <-.
    apply show_comments_encodable. exact HE'.
  - split; [done|]. intros status page [= <- <-]. split; [by_compute|].
    by apply not_found_encodable.
Qed.

Lemma splitn_2_encodable (text m u v : str) :
  encodable_text text → Py.splitn 0x20 2 text = [m; u; v] →
  encodable_text m ∧ encodable_text u.
Proof.
  intros Ht. simpl. destruct (Py.cut 0x20 text) as [[a rest]|] eqn:E1; [|done].
  destruct (cut_encodable _ _ _ _ E1 Ht) as [Ha Hrest].
  destruct (Py.cut 0x20 rest) as [[b c]|] eqn:E2; [|done].
  destruct (cut_encodable _ _ _ _ E2 Hrest) as [Hb _].
  by intros [= <- <- _].
Qed.

Lemma handle_connection_encodable (conx : bytes) (ENTRIES : list str) :
  Forall encodable_text ENTRIES →
  (handle_connection conx ENTRIES).1 ≠ Raise UnicodeEncodeError
  ∧ Forall encodable_text (handle_connection conx ENTRIES).2.
Proof.
  intros HE. unfold handle_connection.
  destruct (parse_request conx) as [[r rest]|e] eqn:Hp.
  2:{ split; [|done]. simpl. intros [= ->].
      destruct (parse_request_errors conx _ Hp) as [?|[?|[?|[?|[?|?]]]]]; done. }
  destruct (parse_request_Return _ _ _ Hp)
    as (raw & after & text & after_headers & _ & Hd & Hs & _ & _ & Hb).
  apply decode_encodable in Hd. destruct (splitn_2_encodable _ _ _ _ Hd Hs) as [Hm Hu].
  assert (∀ t, body r = Some t → encodable_text t) as Hbody.
  { intros t Ht. apply read_body_layout in Hb as (data & _ & Hdata).
    rewrite Ht in Hdata. destruct Hdata as [Hdata _]. by eapply decode_encodable. }
  destruct (do_request_encodable (method r) (url r) (headers r) (body r) ENTRIES
              Hm Hu Hbody HE) as [HE' Hret].
  destruct (do_request _ _ _ _ _) as [[[status page]|e] E'] eqn:Hdo; simpl in *.
  - split; [|done]. destruct (Hret status page eq_refl) as [Hst Hpg].
    destruct (send_response_encodable status page Hst Hpg) as [sent ->]. done.
  - split; [|done]. intros [= ->].
    apply do_request_raises_only in Hdo as (_ & _ & _ & [[_ ?]|(? & _ & ?)]); done.
Qed.

(** X18. When the entries can be encoded (as the initial one can), no
    connection ever fails at encoding its response, and the entries can be
    encoded afterwards: [UnicodeEncodeError] is never raised by the
    server. *)
Theorem never_UnicodeEncodeError (conxs : list bytes) (ENTRIES : list str) :
  Forall encodable_text ENTRIES →
  Forall (fun response => response ≠ Raise UnicodeEncodeError) (serve conxs ENTRIES).1
  ∧ Forall encodable_text (serve conxs ENTRIES).2.
Proof.
  revert ENTRIES. induction conxs as [|conx conxs IH]; intros ENTRIES HE; [by split|].
  cbn [serve]. destruct (handle_connection_encodable conx ENTRIES HE) as [Hr HE'].
  destruct (handle_connection conx ENTRIES) as [[response|e] E']; simpl in *.
  - destruct (IH E' HE') as [Hrs HEs]. destruct (serve conxs E') as [responses E''].
    simpl in *. split; [|done]. by constructor.
  - split; [|done]. by repeat constructor.
Qed.

Lemma never_UnicodeEncodeError_witness :
  Forall (fun response => response ≠ Raise UnicodeEncodeError)
    (serve [post_guest (Str "%ED%A0%80%FF"); Bytes "GET / HTTP/1.0" ++ CRLF ++ CRLF]
       ENTRIES_initial).1
  ∧ Forall encodable_text
      (serve [post_guest (Str "%ED%A0%80%FF"); Bytes "GET / HTTP/1.0" ++ CRLF ++ CRLF]
         ENTRIES_initial).2.
Proof.
  apply (never_UnicodeEncodeError
           [post_guest (Str "%ED%A0%80%FF"); Bytes "GET / HTTP/1.0" ++ CRLF ++ CRLF]
           ENTRIES_initial).
  by_compute.
Defined.

(** X19. Before the body is read the parse has four exceptions: when it
    raises, either the exception is the decoding error, one of the two
    unpacking errors or the assertion, or the request line and the headers
    were read and the header map has the key [content-length]. A request
    without that header raises nothing else. *)
Theorem parse_request_raises (req : bytes) (e : error) :
  parse_request req = Raise e →
  (e = UnicodeDecodeError ∨ e = MalformedRequestLine ∨ e = UnsupportedMethod
   ∨ e = MalformedHeader)
  ∨ ∃ raw after text m u v hs after_headers value,
      Py.readline req = (raw, after)
      ∧ Py.decode raw = Return text
      ∧ Py.splitn 0x20 2 text = [m; u; v]
      ∧ read_headers after ∅ = Return (hs, after_headers)
      ∧ hs !! Str "content-length" = Some value.
Proof.
  unfold parse_request. destruct (Py.readline req) as [raw after].
  destruct (Py.decode raw) as [text|e'] eqn:Hd.
  2:{ intros [= <-]. left. left. by eapply decode_Raise. }
  cbn [mbind outcome_bind].
  destruct (Py.splitn 0x20 2 text) as [|m [|u [|v [|? ?]]]] eqn:Hs;
    try (intros [= <-]; tauto).
  case_bool_decide; [|intros [= <-]; tauto]. unfold read_rest.
  destruct (read_headers after ∅) as [[hs after_headers]|e'] eqn:Hh.
  - cbn [mbind outcome_bind]. unfold read_body.
    destruct (hs !! Str "content-length") as [value|] eqn:Hv; [|done].
    intros _. right. by exists raw, after, text, m, u, v, hs, after_headers, value.
  - intros [= <-]. left. pose proof (read_headers_total after ∅) as Ht. rewrite Hh in Ht.
    apply read_headers_loop_errors in Ht. tauto.
Qed.

Lemma parse_request_raises_witness :
  (MalformedHeader = UnicodeDecodeError ∨ MalformedHeader = MalformedRequestLine
   ∨ MalformedHeader = UnsupportedMethod ∨ MalformedHeader = MalformedHeader)
  ∨ ∃ raw after text m u v hs after_headers value,
      Py.readline (Bytes "GET / HTTP/1.0" ++ CRLF ++ Bytes "Host") = (raw, after)
      ∧ Py.decode raw = Return text
      ∧ Py.splitn 0x20 2 text = [m; u; v]
      ∧ read_headers after ∅ = Return (hs, after_headers)
      ∧ hs !! Str "content-length" = Some value.
Proof.
  apply (parse_request_raises (Bytes "GET / HTTP/1.0" ++ CRLF ++ Bytes "Host")).
  by vm_compute.
Defined.
